(** * risk-simulator: the Monte Carlo route [src/app/api/simular/route.ts]

    A shallow embedding of the route handler [POST] and of its helpers
    [gaussianRandom], [mean] and [percentile], followed by the properties
    the specification states about them.

    Numbers.  A JavaScript [number] is a double; it is modelled by [number]:
    either [NaN] or a finite value [Num r] with [r] a real, and arithmetic
    on finite values is exact.  Rounding, overflow to an infinity and the
    sign of zero are therefore not visible in this model, and the properties
    proved on it are those that do not rest on them: shapes, comparisons
    against constants, the order of the checks, the paths that [NaN] takes,
    counts of calls, and equations that repeat the expressions of the code.
    [NaN] is kept, since the code returns it and its comparisons decide what
    the validation lets through.  Where rounding decides a property, the
    function is modelled a second time on doubles, in [Double].

    Effects.  [Math.random] is a stream of reals read through a counter;
    an exception is an outcome of its own, which the [catch] of [POST]
    turns into the response with status 500; the two [while] loops of
    [gaussianRandom] run on a budget.

    Boundary.  [POST] starts from the four fields that the destructuring of
    the parsed body gives; reading and parsing the request, and the log
    line of the [catch] block, are outside the model. *)

From Stdlib Require Import PrimFloat.
From Stdlib Require Import String Reals Zfloor Lra Lia ZArith Bool List
  Permutation Sorted.
Import ListNotations.

Open Scope R_scope.

(** ** Numbers *)

Inductive number : Type :=
| NaN
| Num (r : R).

Definition lift1 (f : R -> R) (x : number) : number :=
  match x with
  | Num a => Num (f a)
  | NaN => NaN
  end.

Definition lift2 (f : R -> R -> R) (x y : number) : number :=
  match x, y with
  | Num a, Num b => Num (f a b)
  | _, _ => NaN
  end.

Definition add : number -> number -> number := lift2 Rplus.
Definition sub : number -> number -> number := lift2 Rminus.
Definition mul : number -> number -> number := lift2 Rmult.

(** [x / y].  The quotient [0 / 0] is [NaN].  A non-zero number over zero
    is an infinity in JavaScript, which [number] does not hold; the route
    divides by [100], by [Math.sqrt(252)], by [252], by a price that passed
    [precio_actual <= 0], and by [values.length] under the sum [0] of an
    empty array, so that case does not arise in it. *)
Definition div (x y : number) : number :=
  match x, y with
  | Num a, Num b => if Req_dec_T b 0 then NaN else Num (a / b)
  | _, _ => NaN
  end.

(** Comparisons: every comparison with [NaN] is false. *)
Definition lt (x y : number) : bool :=
  match x, y with
  | Num a, Num b => if Rlt_dec a b then true else false
  | _, _ => false
  end.

Definition le (x y : number) : bool :=
  match x, y with
  | Num a, Num b => if Rle_dec a b then true else false
  | _, _ => false
  end.

Definition gt (x y : number) : bool := lt y x.

(** [x === y] on numbers. *)
Definition strict_eq (x y : number) : bool :=
  match x, y with
  | Num a, Num b => if Req_dec_T a b then true else false
  | _, _ => false
  end.

(** ** The [Math] functions the route calls *)

Definition Math_PI : number := Num PI.
Definition Math_floor (x : number) : number := lift1 (fun r => IZR (Zfloor r)) x.
Definition Math_ceil (x : number) : number := lift1 (fun r => IZR (Zceil r)) x.
Definition Math_abs (x : number) : number := lift1 Rabs x.
Definition Math_exp (x : number) : number := lift1 exp x.
Definition Math_cos (x : number) : number := lift1 cos x.

(** [Math.sqrt] of a negative number is [NaN]. *)
Definition Math_sqrt (x : number) : number :=
  match x with
  | Num r => if Rlt_dec r 0 then NaN else Num (sqrt r)
  | NaN => NaN
  end.

(** [Math.log] of a negative number is [NaN].  [Math.log(0)] is an infinity
    in JavaScript; [gaussianRandom] calls it on a [u] that left the loop
    [while (u === 0)], so never on zero. *)
Definition Math_log (x : number) : number :=
  match x with
  | Num r => if Rlt_dec 0 r then Num (ln r) else NaN
  | NaN => NaN
  end.

(** ** Arrays of numbers *)

(** Reading [a[i]] where [i] is a number: [None] stands for [undefined],
    which is what an index that is no element of the array gives. *)
Definition is_integer (r : R) : bool :=
  if Req_dec_T r (IZR (Zfloor r)) then true else false.

Definition index (a : list number) (i : number) : option number :=
  match i with
  | Num r =>
      if is_integer r && (if Rle_dec 0 r then true else false)
      then nth_error a (Z.to_nat (Zfloor r))
      else None
  | NaN => None
  end.

(** [ToNumber] of what an array read gives: [undefined] becomes [NaN]. *)
Definition to_number (v : option number) : number :=
  match v with
  | Some x => x
  | None => NaN
  end.

(** [Array.prototype.sort(comparefn)].  The language requires a stable sort
    and reads a [NaN] result of [comparefn] as [+0]; with a consistent
    comparator the sorted array is determined, and the stable insertion
    sort below computes it.  [x] moves behind [y] when [comparefn(x, y) > 0].
    On an array that holds a [NaN] the comparator [(a, b) => a - b] is not
    consistent and the order is the engine's own, which this function does
    not reproduce: the properties below sort arrays of finite numbers, or
    use nothing but the length of the result. *)
Fixpoint sort_insert (comparefn : number -> number -> number)
  (x : number) (l : list number) : list number :=
  match l with
  | [] => [x]
  | y :: l' =>
      if gt (comparefn x y) (Num 0)
      then y :: sort_insert comparefn x l'
      else x :: l
  end.

Definition Array_sort (comparefn : number -> number -> number)
  (a : list number) : list number :=
  fold_right (sort_insert comparefn) [] a.

(** ** [mean] and [percentile] *)

Definition mean (values : list number) : number :=
  div (fold_left (fun sum v => add sum v) values (Num 0))
      (Num (INR (length values))).

(** Which [return] of [percentile] a call leaves through. *)
Inductive branch : Type :=
| EmptyGuard      (* if (values.length === 0) return NaN *)
| ExactRank       (* if (lower === upper) return sorted[lower] *)
| Interpolated.   (* return sorted[lower] * (1 - weight) + sorted[upper] * weight *)

Definition percentile_traced (values : list number) (p : number)
  : branch * option number :=
  if strict_eq (Num (INR (length values))) (Num 0) then (EmptyGuard, Some NaN)
  else
    let sorted := Array_sort (fun a b => sub a b) values in
    let pos := mul (div p (Num 100)) (sub (Num (INR (length sorted))) (Num 1)) in
    let lower := Math_floor pos in
    let upper := Math_ceil pos in
    if strict_eq lower upper then (ExactRank, index sorted lower)
    else
      let weight := sub pos lower in
      (Interpolated,
       Some (add (mul (to_number (index sorted lower)) (sub (Num 1) weight))
                 (mul (to_number (index sorted upper)) weight))).

Definition percentile (values : list number) (p : number) : option number :=
  snd (percentile_traced values p).

(** [mean] on doubles: the same left-to-right sum and the same division,
    every operation rounded to the nearest double.  [of_length] is the
    length of an array as a double; counting up by 1 is exact below 2^53. *)
Module Double.

Fixpoint of_length (n : nat) : float :=
  match n with
  | O => PrimFloat.zero
  | S k => PrimFloat.add (of_length k) PrimFloat.one
  end.

Definition mean (values : list float) : float :=
  PrimFloat.div
    (fold_left (fun sum v => PrimFloat.add sum v) values PrimFloat.zero)
    (of_length (length values)).

End Double.

(** ** The request body and the response *)

(** What a field of the parsed JSON body can be: [VUndefined] for a field
    that is missing. *)
Inductive value : Type :=
| VUndefined
| VNull
| VBoolean (b : bool)
| VString (s : string)
| VNumber (n : number)
| VObject.

Definition typeof (v : value) : string :=
  match v with
  | VUndefined => "undefined"
  | VNull => "object"
  | VBoolean _ => "boolean"
  | VString _ => "string"
  | VNumber _ => "number"
  | VObject => "object"
  end.

(** The number a field is, once [typeof] said ["number"]. *)
Definition as_number (v : value) : number :=
  match v with
  | VNumber n => n
  | _ => NaN
  end.

(** [const { precio_actual, volatilidad, dias, simulaciones } = body] *)
Record body : Type := Body {
  precio_actual : value;
  volatilidad : value;
  dias : value;
  simulaciones : value
}.

(** What [Math.min] and [Math.max] return: a number, or the infinity they
    give when called without arguments. *)
Inductive extended : Type :=
| Infinity
| NegInfinity
| Finite (x : number).

(** [Math.min(...values)] and [Math.max(...values)]: [NaN] as soon as one
    argument is [NaN], else the least (greatest) argument, starting from
    [Infinity] ([-Infinity]). *)
Definition min_step (lowest : extended) (x : number) : extended :=
  match lowest, x with
  | Finite NaN, _ => Finite NaN
  | _, NaN => Finite NaN
  | Infinity, Num r => Finite (Num r)
  | NegInfinity, Num _ => NegInfinity
  | Finite (Num a), Num r => Finite (Num (if Rlt_dec r a then r else a))
  end.

Definition max_step (highest : extended) (x : number) : extended :=
  match highest, x with
  | Finite NaN, _ => Finite NaN
  | _, NaN => Finite NaN
  | NegInfinity, Num r => Finite (Num r)
  | Infinity, Num _ => Infinity
  | Finite (Num a), Num r => Finite (Num (if Rlt_dec a r then r else a))
  end.

Definition Math_min (values : list number) : extended :=
  fold_left min_step values Infinity.

Definition Math_max (values : list number) : extended :=
  fold_left max_step values NegInfinity.

(** The object of the successful response. *)
Record resultado : Type := Resultado {
  res_simulaciones : list (list number);
  res_promedio : list number;
  res_percentil_5 : list (option number);
  res_percentil_95 : list (option number);
  res_precio_final_promedio : number;
  res_precio_final_minimo : extended;
  res_precio_final_maximo : extended;
  res_var_95 : number;
  res_var_percentaje : number
}.

Inductive payload : Type :=
| ErrorBody (error : string)
| ResultBody (r : resultado).

(** [NextResponse.json(payload, { status })]; the status is 200 when the
    call gives none. *)
Inductive response : Type :=
| NextResponse_json (p : payload) (status : Z).

Definition bad_request (msg : string) : response :=
  NextResponse_json (ErrorBody msg) 400.

(** ** Validation: the early returns of [POST]

    [Some r] is the response of the first check that fires, [None] means
    that every check passed and the simulation runs. *)
Definition validaciones (b : body) : option response :=
  if negb (typeof (precio_actual b) =? "number")%string
     || negb (typeof (volatilidad b) =? "number")%string
     || negb (typeof (dias b) =? "number")%string
     || negb (typeof (simulaciones b) =? "number")%string
  then Some (bad_request "Parámetros inválidos")
  else
    let precio_actual := as_number (precio_actual b) in
    let volatilidad := as_number (volatilidad b) in
    let dias := as_number (dias b) in
    let simulaciones := as_number (simulaciones b) in
    if le precio_actual (Num 0)
    then Some (bad_request "El precio actual debe ser mayor que 0")
    else if lt volatilidad (Num 0) || gt volatilidad (Num 200)
    then Some (bad_request "La volatilidad debe estar entre 0 y 200")
    else if lt dias (Num 1) || gt dias (Num 365)
    then Some (bad_request "Los días deben estar entre 1 y 365")
    else if lt simulaciones (Num 100) || gt simulaciones (Num 10000)
    then Some (bad_request "Las simulaciones deben estar entre 100 y 10000")
    else None.

(** ** Effects: the random source, exceptions and loops

    [Math.random] is a global generator.  Its successive results are the
    stream [random]; the state threaded through the code is the number of
    calls made so far.  A computation returns a value, throws, or runs out
    of the budget [fuel] that bounds each [while] loop of [gaussianRandom]. *)

Inductive exn : Type :=
| RangeError
| TypeError.

Inductive outcome (A : Type) : Type :=
| Done (a : A) (calls : nat)
| Throw (e : exn) (calls : nat)
| Diverge.

Arguments Done {A} a calls.
Arguments Throw {A} e calls.
Arguments Diverge {A}.

Definition M (A : Type) : Type := nat -> outcome A.

Definition ret {A} (a : A) : M A := fun s => Done a s.

Definition bind {A B} (m : M A) (k : A -> M B) : M B :=
  fun s =>
    match m s with
    | Done a s' => k a s'
    | Throw e s' => Throw e s'
    | Diverge => Diverge
    end.

Definition throw {A} (e : exn) : M A := fun s => Throw e s.

Definition try_catch {A} (m : M A) (handler : exn -> M A) : M A :=
  fun s =>
    match m s with
    | Throw e s' => handler e s'
    | r => r
    end.

Declare Scope js_scope.
Delimit Scope js_scope with js.
Notation "x <- m ;; k" := (bind m (fun x => k))
  (at level 61, m at next level, right associativity) : js_scope.
Open Scope js_scope.

(** [for (x of l) st = body(x, st)] *)
Fixpoint for_each {A S} (l : list A) (body : A -> S -> M S) (st : S) : M S :=
  match l with
  | [] => ret st
  | x :: l' => st' <- body x st ;; for_each l' body st'
  end.

(** [n] calls of [m], in order, collecting the results. *)
Fixpoint times {A} (n : nat) (m : M A) : M (list A) :=
  match n with
  | O => ret []
  | S n' => x <- m ;; xs <- times n' m ;; ret (x :: xs)
  end.

(** The values a counter takes in [for (c = a; c <= b; c++)] and in
    [for (c = a; c < b; c++)]; none when the bound is [NaN]. *)
Definition range_le (a : nat) (b : number) : list nat :=
  match b with
  | Num r => seq a (Z.to_nat (Zfloor r + 1) - a)
  | NaN => []
  end.

Definition range_lt (a : nat) (b : number) : list nat :=
  match b with
  | Num r => seq a (Z.to_nat (Zceil r) - a)
  | NaN => []
  end.

(** [a[i] = v]: inside the array the element is replaced; past its end the
    array grows, the holes in between filled with [hole]. *)
Fixpoint array_set {A} (hole : A) (a : list A) (i : nat) (v : A) : list A :=
  match a, i with
  | [], O => [v]
  | [], S i' => hole :: array_set hole [] i' v
  | _ :: a', O => v :: a'
  | x :: a', S i' => x :: array_set hole a' i' v
  end.

(** [Array(len).fill(v)]: [Array] throws a [RangeError] unless [len] is an
    integer from 0 to 2^32 - 1. *)
Definition Array_fill (len v : number) : M (list number) :=
  match len with
  | Num r =>
      if is_integer r && (if Rle_dec 0 r then true else false)
         && (if Rle_dec r 4294967295 then true else false)
      then ret (repeat v (Z.to_nat (Zfloor r)))
      else throw RangeError
  | NaN => throw RangeError
  end.

(** [ToLength]: [NaN] and what is not positive give 0, the rest is
    truncated and capped at 2^53 - 1. *)
Definition ToLength (x : number) : Z :=
  match x with
  | Num r => if Rle_dec r 0 then 0%Z else Z.min (Zfloor r) 9007199254740991
  | NaN => 0%Z
  end.

(** [Array.from({ length }, mapFn)] for a [mapFn] that ignores its
    arguments: [mapFn] is called once per element, so every row is an array
    of its own. *)
Definition Array_from {A} (length : number) (mapFn : M A) : M (list A) :=
  let len := ToLength length in
  if (4294967295 <? len)%Z then throw RangeError
  else times (Z.to_nat len) mapFn.

Section Route.

(** [random k] is what the call number [k] of [Math.random()] returns. *)
Variable random : nat -> R.

(** Budget of each [while] loop. *)
Variable fuel : nat.

Definition Math_random : M number :=
  fun s => Done (Num (random s)) (S s).

(** [while (u === 0) u = Math.random()] *)
Fixpoint while_zero (n : nat) (u : number) : M number :=
  if strict_eq u (Num 0) then
    match n with
    | O => fun _ => Diverge
    | S n' => u' <- Math_random ;; while_zero n' u'
    end
  else ret u.

Definition gaussianRandom : M number :=
  u <- while_zero fuel (Num 0) ;;
  v <- while_zero fuel (Num 0) ;;
  ret (mul (Math_sqrt (mul (Num (-2.0)) (Math_log u)))
           (Math_cos (mul (mul (Num 2.0) Math_PI) v))).

(** The body of the inner loop: one step of one trajectory.  Reading
    [simulacionesArr[i]] when there is no row [i] throws a [TypeError]. *)
Definition paso_trayectoria (volDiaria deltaT tasaInteres : number)
  (paso i : nat) (simulacionesArr : list (list number))
  : M (list (list number)) :=
  ruido <- gaussianRandom ;;
  let exponencial :=
    mul (sub tasaInteres (mul (mul (Num 0.5) volDiaria) volDiaria)) deltaT in
  let gaussiano := mul (mul volDiaria (Math_sqrt deltaT)) ruido in
  match nth_error simulacionesArr i with
  | None => throw TypeError
  | Some fila =>
      ret (array_set [] simulacionesArr i
             (array_set NaN fila paso
                (mul (to_number (nth_error fila (paso - 1)))
                     (Math_exp (add exponencial gaussiano)))))
  end.

(** The part of [POST] after the validation.  The loop that pushes one
    mean and two percentiles per step is a [map] over the steps.  Rows have
    [pasosTiempo + 1] entries whenever there are rows, so [fila[paso]] reads
    inside the row; [to_number] covers the [undefined] of a read outside. *)
Definition simular (precio_actual volatilidad dias simulaciones : number)
  : M response :=
  let valorBase := precio_actual in
  let volDiaria := div (div volatilidad (Num 100)) (Math_sqrt (Num 252)) in
  let deltaT := div (Num 1) (Num 252) in
  let tasaInteres := Num 0 in
  let pasosTiempo := dias in
  let numTrayectorias := simulaciones in
  inicial <- Array_from numTrayectorias
               (Array_fill (add pasosTiempo (Num 1)) valorBase) ;;
  simulacionesArr <-
    for_each (range_le 1 pasosTiempo)
      (fun paso arr =>
         for_each (range_lt 0 numTrayectorias)
           (paso_trayectoria volDiaria deltaT tasaInteres paso) arr)
      inicial ;;
  let columna paso :=
    map (fun fila => to_number (nth_error fila paso)) simulacionesArr in
  let pasos := range_le 0 pasosTiempo in
  let promedio := map (fun paso => mean (columna paso)) pasos in
  let percentil_5 := map (fun paso => percentile (columna paso) (Num 5)) pasos in
  let percentil_95 := map (fun paso => percentile (columna paso) (Num 95)) pasos in
  let preciosFinales :=
    map (fun fila => to_number (index fila pasosTiempo)) simulacionesArr in
  let precio_final_promedio := mean preciosFinales in
  let precio_final_minimo := Math_min preciosFinales in
  let precio_final_maximo := Math_max preciosFinales in
  let cambios := map (fun v => div (sub v valorBase) valorBase) preciosFinales in
  let pRiesgo := percentile cambios (Num 5) in
  let var_95 := mul valorBase (Math_abs (to_number pRiesgo)) in
  let var_percentaje := mul (to_number pRiesgo) (Num 100) in
  ret (NextResponse_json
         (ResultBody
            {| res_simulaciones := simulacionesArr;
               res_promedio := promedio;
               res_percentil_5 := percentil_5;
               res_percentil_95 := percentil_95;
               res_precio_final_promedio := precio_final_promedio;
               res_precio_final_minimo := precio_final_minimo;
               res_precio_final_maximo := precio_final_maximo;
               res_var_95 := var_95;
               res_var_percentaje := var_percentaje |})
         200).

Definition POST (b : body) : M response :=
  try_catch
    (match validaciones b with
     | Some r => ret r
     | None =>
         simular (as_number (precio_actual b)) (as_number (volatilidad b))
                 (as_number (dias b)) (as_number (simulaciones b))
     end)
    (fun _ =>
       ret (NextResponse_json (ErrorBody "Error interno del servidor") 500)).

End Route.

(** [GET] answers every request with status 405. *)
Definition GET : response :=
  NextResponse_json (ErrorBody "Usa POST para esta ruta") 405.

(** ** Vocabulary of the properties *)

(** A validation outcome: rejected with a status 400, or let through. *)
Definition rejected (b : body) : Prop :=
  exists msg, validaciones b = Some (bad_request msg).

Definition accepted (b : body) : Prop := validaciones b = None.

(** A body of four numbers. *)
Definition numeric (p v d n : number) : body :=
  Body (VNumber p) (VNumber v) (VNumber d) (VNumber n).

(** [NaN], or a finite number that satisfies [P]. *)
Definition nan_or (P : R -> Prop) (x : number) : Prop :=
  match x with
  | NaN => True
  | Num r => P r
  end.

(** The response of the [catch] block. *)
Definition internal_error : response :=
  NextResponse_json (ErrorBody "Error interno del servidor") 500.

(** [percentile] in the words of the specification, on a column that is
    already sorted: the fractional rank [pos = (p/100)(n-1)], its floor
    [lower] and ceiling [upper], the element at [lower] when the two agree
    and the interpolation of weight [w = pos - lower] otherwise. *)
Definition spec_percentile (sorted : list R) (p : R) : option number :=
  let n := INR (length sorted) in
  let pos := p / 100 * (n - 1) in
  let lower := Zfloor pos in
  let upper := Zceil pos in
  let at_rank k := index (map Num sorted) (Num (IZR k)) in
  if Z.eq_dec lower upper then at_rank lower
  else
    let w := pos - IZR lower in
    Some (add (mul (to_number (at_rank lower)) (Num (1 - w)))
              (mul (to_number (at_rank upper)) (Num w))).

(** ** Vocabulary of the simulation *)

Section Draws.

Variable random : nat -> R.
Variable fuel : nat.

(** What a call of [gaussianRandom] returns when [s] calls of
    [Math.random] were made before it, and how many were made after it. *)
Definition gauss_value (s : nat) : number :=
  match gaussianRandom random fuel s with
  | Done z _ => z
  | _ => NaN
  end.

Definition gauss_next (s : nat) : nat :=
  match gaussianRandom random fuel s with
  | Done _ s' => s'
  | _ => s
  end.

(** The state after [k] calls of [gaussianRandom] that started in [s0], and
    the draw number [k] (from 0) of that sequence of calls. *)
Definition state_after (k s0 : nat) : nat := Nat.iter k gauss_next s0.

Definition draw (k s0 : nat) : number := gauss_value (state_after k s0).

(** The factor [Math.exp(exponencial + gaussiano)] of one step, as [POST]
    computes it from the volatility and the draw. *)
Definition factor_paso (volatilidad ruido : number) : number :=
  let volDiaria := div (div volatilidad (Num 100)) (Math_sqrt (Num 252)) in
  let deltaT := div (Num 1) (Num 252) in
  let tasaInteres := Num 0 in
  Math_exp
    (add (mul (sub tasaInteres (mul (mul (Num 0.5) volDiaria) volDiaria)) deltaT)
         (mul (mul volDiaria (Math_sqrt deltaT)) ruido)).

Variables (valorBase volatilidad : number) (n d s0 : nat).

(** The price of trajectory [i] after [t] steps: the draws are consumed step
    by step and, within a step, trajectory by trajectory, so the pair
    (trajectory [i], step [t + 1]) gets the draw number [t * n + i]. *)
Fixpoint precio_en (i t : nat) : number :=
  match t with
  | O => valorBase
  | S t' => mul (precio_en i t') (factor_paso volatilidad (draw (t' * n + i) s0))
  end.

(** Row [i] once [t] steps are done: the prices up to [t], then the fill. *)
Definition fila_tras (t i : nat) : list number :=
  map (fun c => if (c <=? t)%nat then precio_en i c else valorBase)
      (seq 0 (d + 1)).

(** The matrix inside step [t + 1], when the rows before [i] are done. *)
Definition matriz_en (t i : nat) : list (list number) :=
  map (fun j => if (j <? i)%nat then fila_tras (S t) j else fila_tras t j)
      (seq 0 n).

End Draws.

(** The daily volatility and the factor of one step in the words of the
    specification: [dailyVol = (annualVolatilityPercent / 100) / sqrt 252],
    [deltaT = 1/252], a rate of 0, and
    [exp ((0 - 0.5 dailyVol^2) deltaT + dailyVol sqrt(deltaT) z)]. *)
Definition spec_daily_vol (annualVolatilityPercent : R) : R :=
  annualVolatilityPercent / 100 / sqrt 252.

Definition spec_step_factor (annualVolatilityPercent z : R) : R :=
  let dailyVol := spec_daily_vol annualVolatilityPercent in
  let deltaT := 1 / 252 in
  exp ((0 - 0.5 * dailyVol ^ 2) * deltaT + dailyVol * sqrt deltaT * z).

(** What the properties of the simulation assume of [Math.random]: results
    from 0 inclusive to 1 exclusive, and no [fuel] zeros in a row, so that
    the loops of [gaussianRandom] end within their budget. *)
Definition well_behaved_source (random : nat -> R) (fuel : nat) : Prop :=
  (forall k, 0 <= random k < 1) /\
  (forall k, exists j, (j < fuel)%nat /\ random (k + j)%nat <> 0).

(** The valid parameters of the specification: a positive price, a
    volatility in [0, 200], a whole number of days in [1, 365] and a whole
    number of trajectories in [100, 10000]. *)
Definition valid_parameters (currentPrice annualVolatilityPercent : R)
  (horizonDays pathCount : Z) : Prop :=
  0 < currentPrice /\
  0 <= annualVolatilityPercent <= 200 /\
  (1 <= horizonDays <= 365)%Z /\
  (100 <= pathCount <= 10000)%Z.

(** The body that carries these parameters. *)
Definition request (currentPrice annualVolatilityPercent : R)
  (horizonDays pathCount : Z) : body :=
  numeric (Num currentPrice) (Num annualVolatilityPercent)
          (Num (IZR horizonDays)) (Num (IZR pathCount)).

(** A finite, strictly positive number. *)
Definition positive (x : number) : Prop :=
  match x with
  | Num r => 0 < r
  | NaN => False
  end.

(** A source to run the simulation on: [Math.random] returning one half at
    every call. *)
Definition constant_half : nat -> R := fun _ => 1 / 2.

(** The relative returns of the terminal prices of a matrix:
    [(row[horizonDays] - currentPrice) / currentPrice] for every row. *)
Definition terminal_returns (currentPrice : R) (horizonDays : Z)
  (matrix : list (list number)) : list number :=
  map (fun row =>
         div (sub (to_number (index row (Num (IZR horizonDays))))
                  (Num currentPrice))
             (Num currentPrice))
      matrix.

(** ** Vocabulary of the further properties *)

(** The ranges of the four checks, as predicates on reals. *)
Definition price_range (r : R) : Prop := 0 < r.
Definition volatility_range (r : R) : Prop := 0 <= r <= 200.
Definition days_range (r : R) : Prop := 1 <= r <= 365.
Definition paths_range (r : R) : Prop := 100 <= r <= 10000.

(** The five messages a rejection can carry. *)
Definition rejection_messages : list string :=
  [ "Parámetros inválidos";
    "El precio actual debe ser mayor que 0";
    "La volatilidad debe estar entre 0 y 200";
    "Los días deben estar entre 1 y 365";
    "Las simulaciones deben estar entre 100 y 10000" ]%string.

(** [random] returns zero at the [a] calls from call [s] on, and not at the
    next one. *)
Definition first_nonzero (random : nat -> R) (s a : nat) : Prop :=
  (forall j, (j < a)%nat -> random (s + j)%nat = 0) /\
  random (s + a)%nat <> 0.

(** The Box-Muller transform of two uniform samples. *)
Definition box_muller (u v : R) : R :=
  sqrt (-2 * ln u) * cos (2 * PI * v).

(** The fractional rank of the percentage [p] in a column of [n] elements,
    and the value at a fractional rank [pos] of a sorted column: the linear
    interpolation between the two neighbours of [pos]. *)
Definition rank (p : R) (n : nat) : R := p / 100 * (INR n - 1).

Definition interpolate (sorted : list R) (pos : R) : R :=
  let w := pos - IZR (Zfloor pos) in
  nth (Z.to_nat (Zfloor pos)) sorted 0 * (1 - w) +
  nth (Z.to_nat (Zceil pos)) sorted 0 * w.

(** The statistics of [POST], lines 110 to 144 of the route, as a function
    of the price, of the number of days and of the simulated matrix: what
    [simular] computes once its loops are done. *)
Definition resumen (valorBase pasosTiempo : number)
  (simulacionesArr : list (list number)) : resultado :=
  let columna paso :=
    map (fun fila => to_number (nth_error fila paso)) simulacionesArr in
  let pasos := range_le 0 pasosTiempo in
  let promedio := map (fun paso => mean (columna paso)) pasos in
  let percentil_5 := map (fun paso => percentile (columna paso) (Num 5)) pasos in
  let percentil_95 := map (fun paso => percentile (columna paso) (Num 95)) pasos in
  let preciosFinales :=
    map (fun fila => to_number (index fila pasosTiempo)) simulacionesArr in
  let precio_final_promedio := mean preciosFinales in
  let precio_final_minimo := Math_min preciosFinales in
  let precio_final_maximo := Math_max preciosFinales in
  let cambios := map (fun v => div (sub v valorBase) valorBase) preciosFinales in
  let pRiesgo := percentile cambios (Num 5) in
  let var_95 := mul valorBase (Math_abs (to_number pRiesgo)) in
  let var_percentaje := mul (to_number pRiesgo) (Num 100) in
  {| res_simulaciones := simulacionesArr;
     res_promedio := promedio;
     res_percentil_5 := percentil_5;
     res_percentil_95 := percentil_95;
     res_precio_final_promedio := precio_final_promedio;
     res_precio_final_minimo := precio_final_minimo;
     res_precio_final_maximo := precio_final_maximo;
     res_var_95 := var_95;
     res_var_percentaje := var_percentaje |}.

(** [preciosFinales] of [POST], line 123, as a function of the simulated
    matrix. *)
Definition preciosFinales (pasosTiempo : number)
  (simulacionesArr : list (list number)) : list number :=
  map (fun fila => to_number (index fila pasosTiempo)) simulacionesArr.

(** Column [paso] of a matrix, as the loop of the statistics reads it. *)
Definition columna (simulacionesArr : list (list number)) (paso : nat)
  : list number :=
  map (fun fila => to_number (nth_error fila paso)) simulacionesArr.

(** The finite value of a number, 0 for [NaN]. *)
Definition real_of (x : number) : R :=
  match x with
  | Num r => r
  | NaN => 0
  end.

(** * Properties *)

(** ** Comparisons of numbers *)

Lemma le_Num (a b : R) : le (Num a) (Num b) = true <-> a <= b.
Proof. unfold le. destruct (Rle_dec a b); split; intros; try easy. Qed.

Lemma strict_eq_Num (a b : R) : strict_eq (Num a) (Num b) = true <-> a = b.
Proof. unfold strict_eq. destruct (Req_dec_T a b); split; intros; easy. Qed.

Lemma lt_NaN_r (x : number) : lt x NaN = false.
Proof. destruct x; reflexivity. Qed.

(** Decide the comparisons of a goal whose operands are known reals. *)
Ltac decide_cmp :=
  repeat first
    [ progress (simpl; unfold gt, lt, le, strict_eq)
    | match goal with
      | |- context [Rle_dec ?a ?b] => destruct (Rle_dec a b); try lra
      | |- context [Rlt_dec ?a ?b] => destruct (Rlt_dec a b); try lra
      | |- context [Req_dec_T ?a ?b] => destruct (Req_dec_T a b); try lra
      end ];
  try reflexivity; try lra.

(** Split on the next comparison of reals that the goal tests. *)
Ltac step_cmp :=
  match goal with
  | |- context [Rle_dec ?a ?b] => destruct (Rle_dec a b); simpl
  | |- context [Rlt_dec ?a ?b] => destruct (Rlt_dec a b); simpl
  end.

(** A body one of whose fields is out of range is rejected, whatever the
    other fields hold. *)
Ltac solve_rejected :=
  unfold rejected;
  repeat match goal with
    | x : value |- _ => destruct x as [ | | | | [|?] | ]
    end;
  unfold validaciones, gt, lt, le; simpl;
  repeat step_cmp;
  first [ eexists; reflexivity | exfalso; lra ].

(** ** Validation *)

Lemma validaciones_numeric (p v d n : number) :
  validaciones (numeric p v d n) =
    if le p (Num 0)
    then Some (bad_request "El precio actual debe ser mayor que 0")
    else if lt v (Num 0) || gt v (Num 200)
    then Some (bad_request "La volatilidad debe estar entre 0 y 200")
    else if lt d (Num 1) || gt d (Num 365)
    then Some (bad_request "Los días deben estar entre 1 y 365")
    else if lt n (Num 100) || gt n (Num 10000)
    then Some (bad_request "Las simulaciones deben estar entre 100 y 10000")
    else None.
Proof. reflexivity. Qed.

Lemma validaciones_in_range (p v d n : R) :
  0 < p -> 0 <= v <= 200 -> 1 <= d <= 365 -> 100 <= n <= 10000 ->
  validaciones (numeric (Num p) (Num v) (Num d) (Num n)) = None.
Proof.
  intros Hp Hv Hd Hn. rewrite validaciones_numeric. decide_cmp.
Qed.

(** C5.  The boundary inputs: a price of 0 is rejected; a volatility of 200
    is accepted and one of 201 rejected; 0 and 366 days are rejected; 99 and
    10001 simulations are rejected.  Each rejection holds whatever the other
    fields are, and the accepted boundary is accepted with every choice of
    the other three fields inside their ranges. *)
Theorem validation_boundaries :
  (forall v d n, rejected (Body (VNumber (Num 0)) v d n)) /\
  (forall p d n : R,
      0 < p -> 1 <= d <= 365 -> 100 <= n <= 10000 ->
      accepted (numeric (Num p) (Num 200) (Num d) (Num n))) /\
  (forall p d n, rejected (Body p (VNumber (Num 201)) d n)) /\
  (forall p v n, rejected (Body p v (VNumber (Num 0)) n)) /\
  (forall p v n, rejected (Body p v (VNumber (Num 366)) n)) /\
  (forall p v d, rejected (Body p v d (VNumber (Num 99)))) /\
  (forall p v d, rejected (Body p v d (VNumber (Num 10001)))).
Proof.
  repeat split; intros; try (apply validaciones_in_range; lra); solve_rejected.
Qed.

Lemma validation_boundaries_witness :
  accepted (numeric (Num 100) (Num 200) (Num 30) (Num 1000)).
Proof.
  apply (proj1 (proj2 validation_boundaries)); lra.
Defined.

(** C7.  The checks run in a fixed order and the first one that fires
    decides the response: the type check whatever the values are, then the
    price whatever the later fields hold, then the volatility, then the
    days, then the number of simulations.  A body with a price of 0 and 0
    days gets the message of the price. *)
Theorem validation_order :
  (forall b,
      typeof (precio_actual b) <> "number"%string \/
      typeof (volatilidad b) <> "number"%string \/
      typeof (dias b) <> "number"%string \/
      typeof (simulaciones b) <> "number"%string ->
      validaciones b = Some (bad_request "Parámetros inválidos")) /\
  (forall p v d n,
      le p (Num 0) = true ->
      validaciones (numeric p v d n) =
        Some (bad_request "El precio actual debe ser mayor que 0")) /\
  (forall p v d n,
      le p (Num 0) = false ->
      lt v (Num 0) || gt v (Num 200) = true ->
      validaciones (numeric p v d n) =
        Some (bad_request "La volatilidad debe estar entre 0 y 200")) /\
  (forall p v d n,
      le p (Num 0) = false ->
      lt v (Num 0) || gt v (Num 200) = false ->
      lt d (Num 1) || gt d (Num 365) = true ->
      validaciones (numeric p v d n) =
        Some (bad_request "Los días deben estar entre 1 y 365")) /\
  (forall p v d n,
      le p (Num 0) = false ->
      lt v (Num 0) || gt v (Num 200) = false ->
      lt d (Num 1) || gt d (Num 365) = false ->
      lt n (Num 100) || gt n (Num 10000) = true ->
      validaciones (numeric p v d n) =
        Some (bad_request "Las simulaciones deben estar entre 100 y 10000")) /\
  (forall v n,
      validaciones (numeric (Num 0) v (Num 0) n) =
        Some (bad_request "El precio actual debe ser mayor que 0")).
Proof.
  split; [|repeat split].
  - intros [p v d n] H. simpl in H. unfold validaciones. simpl.
    destruct p; simpl in *; try reflexivity;
      destruct v; simpl in *; try reflexivity;
      destruct d; simpl in *; try reflexivity;
      destruct n; simpl in *; try reflexivity.
    exfalso. destruct H as [H | [H | [H | H]]]; apply H; reflexivity.
  - intros p v d n Hp. rewrite validaciones_numeric, Hp. reflexivity.
  - intros p v d n Hp Hv. rewrite validaciones_numeric, Hp, Hv. reflexivity.
  - intros p v d n Hp Hv Hd.
    rewrite validaciones_numeric, Hp, Hv, Hd. reflexivity.
  - intros p v d n Hp Hv Hd Hn.
    rewrite validaciones_numeric, Hp, Hv, Hd, Hn. reflexivity.
  - intros v n. rewrite validaciones_numeric.
    replace (le (Num 0) (Num 0)) with true; [reflexivity|].
    symmetry. apply le_Num. lra.
Qed.

(** A body that fails the type check and every range check: the response is
    the one of the type check. *)
Lemma validation_order_witness :
  validaciones (Body (VString "100") (VNumber (Num 500)) (VNumber (Num 0))
                     (VNumber (Num 1))) =
    Some (bad_request "Parámetros inválidos").
Proof.
  apply (proj1 validation_order). left. simpl. discriminate.
Defined.

(** ** What [simular] can answer *)

Lemma simular_status random fuel p v d n s r s' :
  simular random fuel p v d n s = Done r s' ->
  exists res, r = NextResponse_json (ResultBody res) 200.
Proof.
  unfold simular, bind.
  destruct (Array_from _ _ s) as [a0 s0| |]; try discriminate.
  destruct (for_each _ _ _ s0) as [a1 s1| |]; try discriminate.
  unfold ret. intros H. injection H as Hr _. subst r. eexists. reflexivity.
Qed.

Lemma POST_accepted random fuel b :
  accepted b ->
  POST random fuel b =
    try_catch
      (simular random fuel (as_number (precio_actual b))
         (as_number (volatilidad b)) (as_number (dias b))
         (as_number (simulaciones b)))
      (fun _ => ret internal_error).
Proof. unfold accepted, POST. intros ->. reflexivity. Qed.

Lemma POST_accepted_not_400 random fuel b s r s' :
  accepted b ->
  POST random fuel b s = Done r s' ->
  forall msg, r <> bad_request msg.
Proof.
  intros Ha. rewrite (POST_accepted _ _ _ Ha). unfold try_catch.
  destruct (simular _ _ _ _ _ _ s) as [r0 s0|e s0|] eqn:E; try discriminate.
  - intros H. injection H as -> _.
    destruct (simular_status _ _ _ _ _ _ _ _ _ E) as [res ->].
    intros msg. unfold bad_request. discriminate.
  - unfold ret. intros H. injection H as <- _. intros msg.
    unfold bad_request, internal_error. discriminate.
Qed.

(** C10.  [NaN] has the type ["number"] and every comparison with it is
    false, so a body of four numbers in which each field is either [NaN] or
    inside its range passes the validation; [POST] then runs the simulation
    on these numbers, [NaN] included, and its response is no rejection. *)
Theorem nan_passes_validation :
  typeof (VNumber NaN) = "number"%string /\
  (forall x, le NaN x = false /\ lt NaN x = false /\ gt NaN x = false) /\
  (forall p v d n,
      p = NaN \/ v = NaN \/ d = NaN \/ n = NaN ->
      nan_or (fun r => 0 < r) p ->
      nan_or (fun r => 0 <= r <= 200) v ->
      nan_or (fun r => 1 <= r <= 365) d ->
      nan_or (fun r => 100 <= r <= 10000) n ->
      accepted (numeric p v d n) /\
      forall random fuel,
        POST random fuel (numeric p v d n) =
          try_catch (simular random fuel p v d n)
                    (fun _ => ret internal_error) /\
        forall s r s',
          POST random fuel (numeric p v d n) s = Done r s' ->
          forall msg, r <> bad_request msg).
Proof.
  split; [reflexivity|]. split.
  - intros x. unfold gt. rewrite lt_NaN_r. repeat split.
  - intros p v d n _ Hp Hv Hd Hn.
    assert (Ha : accepted (numeric p v d n)).
    { unfold accepted. rewrite validaciones_numeric.
      destruct p, v, d, n; simpl in *; decide_cmp. }
    split; [exact Ha|]. intros random fuel. split.
    + apply (POST_accepted random fuel _ Ha).
    + intros s r s'. apply POST_accepted_not_400. exact Ha.
Qed.

Lemma nan_passes_validation_witness :
  accepted (numeric (Num 100) (Num 20) NaN (Num 1000)).
Proof.
  apply (proj2 (proj2 nan_passes_validation)); simpl; try lra; auto.
Defined.

(** ** Integers and array lengths *)

Lemma is_integer_true (r : R) : is_integer r = true <-> r = IZR (Zfloor r).
Proof. unfold is_integer. destruct (Req_dec_T _ _); split; easy. Qed.

Lemma is_integer_false (r : R) : is_integer r = false <-> r <> IZR (Zfloor r).
Proof. unfold is_integer. destruct (Req_dec_T _ _); split; easy. Qed.

Lemma is_integer_IZR (z : Z) : is_integer (IZR z) = true.
Proof. apply is_integer_true. rewrite ZfloorZ. reflexivity. Qed.

Lemma is_integer_three_halves : is_integer (3 / 2) = false.
Proof.
  apply is_integer_false.
  rewrite (Zfloor_eq 1 (3 / 2)); lra.
Qed.

Lemma ToLength_in_range (n : R) :
  0 < n <= 4294967295 -> ToLength (Num n) = Zfloor n.
Proof.
  intros Hn. unfold ToLength. destruct (Rle_dec n 0); [lra|].
  apply Z.min_l.
  assert (H : (Zfloor n <= 4294967295)%Z).
  { apply le_IZR. pose proof (Zfloor_bound n). lra. }
  lia.
Qed.

Lemma Zfloor_ge (z : Z) (r : R) : IZR z <= r -> (z <= Zfloor r)%Z.
Proof. apply Zfloor_lub. Qed.

Lemma Array_from_throws {A} (n : R) (mapFn : M A) (e : exn) (s : nat) :
  1 <= n <= 4294967295 ->
  mapFn s = Throw e s ->
  Array_from (Num n) mapFn s = Throw e s.
Proof.
  intros Hn Hm. unfold Array_from. rewrite ToLength_in_range by lra.
  assert (H1 : (1 <= Zfloor n)%Z) by (apply Zfloor_ge; lra).
  assert (H2 : (Zfloor n <= 4294967295)%Z).
  { apply le_IZR. pose proof (Zfloor_bound n). lra. }
  replace (4294967295 <? Zfloor n)%Z with false by (symmetry; apply Z.ltb_ge; lia).
  destruct (Z.to_nat (Zfloor n)) as [|k] eqn:E; [lia|].
  simpl. unfold bind. rewrite Hm. reflexivity.
Qed.

(** ** Sorting a column of reals *)

Lemma sort_insert_reals (x : R) (l : list R) :
  exists l',
    sort_insert (fun a b => sub a b) (Num x) (map Num l) = map Num l' /\
    Permutation (x :: l) l' /\
    (StronglySorted Rle l -> StronglySorted Rle l').
Proof.
  induction l as [|y l IH].
  - exists [x]. repeat split; auto. intros _. repeat constructor.
  - destruct IH as (l' & Heq & Hperm & Hsorted). simpl.
    unfold gt, lt. destruct (Rlt_dec 0 (x - y)) as [Hlt | Hge].
    + exists (y :: l'). rewrite Heq. repeat split.
      * apply perm_trans with (y :: x :: l); [apply perm_swap|].
        apply perm_skip. exact Hperm.
      * intros Hs. apply StronglySorted_inv in Hs. destruct Hs as [Hs Hall].
        constructor; [auto|].
        rewrite Forall_forall in *. intros z Hz.
        apply (Permutation_in _ (Permutation_sym Hperm)) in Hz.
        destruct Hz as [<- | Hz]; [lra | auto].
    + exists (x :: y :: l). repeat split; auto.
      intros Hs. constructor; [exact Hs|].
      apply StronglySorted_inv in Hs. destruct Hs as [_ Hall].
      constructor; [lra|].
      rewrite Forall_forall in *. intros z Hz. specialize (Hall z Hz). lra.
Qed.

Lemma Array_sort_reals (l : list R) :
  exists sorted,
    Array_sort (fun a b => sub a b) (map Num l) = map Num sorted /\
    Permutation l sorted /\
    StronglySorted Rle sorted.
Proof.
  induction l as [|x l IH].
  - exists []. repeat split; constructor.
  - destruct IH as (s & Heq & Hperm & Hs).
    destruct (sort_insert_reals x s) as (s' & Heq' & Hperm' & Hs').
    exists s'. unfold Array_sort in *. simpl. rewrite Heq, Heq'.
    repeat split; auto.
    apply perm_trans with (x :: s); auto.
Qed.

(** Two ascending arrangements of the same reals are the same list. *)
Lemma sorted_permutation_unique (l1 l2 : list R) :
  StronglySorted Rle l1 -> StronglySorted Rle l2 -> Permutation l1 l2 ->
  l1 = l2.
Proof.
  revert l2. induction l1 as [|a l1 IH]; intros l2 H1 H2 Hp.
  - apply Permutation_nil in Hp. auto.
  - destruct l2 as [|b l2].
    + apply Permutation_sym, Permutation_nil in Hp. discriminate.
    + apply StronglySorted_inv in H1, H2.
      destruct H1 as [H1 Ha], H2 as [H2 Hb].
      rewrite Forall_forall in Ha, Hb.
      assert (Hab : a = b).
      { assert (Hin1 : In a (b :: l2))
          by (apply (Permutation_in _ Hp); left; reflexivity).
        assert (Hin2 : In b (a :: l1))
          by (apply (Permutation_in _ (Permutation_sym Hp)); left; reflexivity).
        destruct Hin1 as [E | Hin1]; [auto|].
        destruct Hin2 as [E | Hin2]; [auto|].
        apply Rle_antisym; auto. }
      subst b. f_equal. apply IH; auto.
      apply Permutation_cons_inv with a. exact Hp.
Qed.

Lemma Array_sort_permutation (l1 l2 : list R) :
  Permutation l1 l2 ->
  Array_sort (fun a b => sub a b) (map Num l1) = Array_sort (fun a b => sub a b) (map Num l2).
Proof.
  intros Hp.
  destruct (Array_sort_reals l1) as (s1 & -> & Hp1 & Hs1).
  destruct (Array_sort_reals l2) as (s2 & -> & Hp2 & Hs2).
  f_equal. apply sorted_permutation_unique; auto.
  apply perm_trans with l1; [apply Permutation_sym; exact Hp1|].
  apply perm_trans with l2; auto.
Qed.

(** ** [percentile] on a column of reals *)

Lemma INR_length_pos {A} (l : list A) : l <> [] -> 1 <= INR (length l).
Proof.
  destruct l as [|x l]; [congruence|]. intros _.
  change (length (x :: l)) with (S (length l)). rewrite S_INR.
  pose proof (pos_INR (length l)). lra.
Qed.

Lemma percentile_traced_reals (l sorted : list R) (p : R) :
  l <> [] ->
  Array_sort (fun a b => sub a b) (map Num l) = map Num sorted ->
  percentile_traced (map Num l) (Num p) =
    (if Z.eq_dec (Zfloor (p / 100 * (INR (length sorted) - 1)))
                 (Zceil (p / 100 * (INR (length sorted) - 1)))
     then ExactRank else Interpolated,
     spec_percentile sorted p).
Proof.
  intros Hne Hsort. unfold percentile_traced, spec_percentile.
  rewrite Hsort. rewrite !length_map.
  pose proof (INR_length_pos l Hne) as Hlen.
  unfold strict_eq at 1. destruct (Req_dec_T (INR (length l)) 0); [lra|].
  unfold div. destruct (Req_dec_T 100 0); [lra|].
  simpl mul. simpl sub. simpl Math_floor. simpl Math_ceil.
  set (pos := p / 100 * (INR (length sorted) - 1)).
  unfold strict_eq.
  destruct (Req_dec_T (IZR (Zfloor pos)) (IZR (Zceil pos))) as [E | E];
    destruct (Z.eq_dec (Zfloor pos) (Zceil pos)) as [E' | E'].
  - reflexivity.
  - apply eq_IZR in E. contradiction.
  - rewrite E' in E. contradiction.
  - reflexivity.
Qed.

Lemma index_IZR (a : list number) (k : Z) :
  (0 <= k)%Z -> index a (Num (IZR k)) = nth_error a (Z.to_nat k).
Proof.
  intros Hk. unfold index. rewrite is_integer_IZR, ZfloorZ.
  destruct (Rle_dec 0 (IZR k)) as [_ | H]; [reflexivity|].
  exfalso. apply H. apply IZR_le. exact Hk.
Qed.

Lemma percentile_1_2_3 :
  percentile [Num 1; Num 2; Num 3] (Num 50) = Some (Num 2).
Proof.
  change [Num 1; Num 2; Num 3] with (map Num [1; 2; 3]). unfold percentile.
  rewrite (percentile_traced_reals [1; 2; 3] [1; 2; 3] 50);
    [| discriminate | simpl; decide_cmp].
  cbn [snd]. unfold spec_percentile. cbv zeta.
  replace (50 / 100 * (INR (length [1; 2; 3]) - 1)) with 1 by (simpl; lra).
  rewrite (Zfloor_eq 1 1), (Zceil_eq 1 1) by lra.
  rewrite (index_IZR _ 1) by lia. reflexivity.
Qed.

Lemma percentile_1_2_3_4 :
  percentile [Num 1; Num 2; Num 3; Num 4] (Num 50) = Some (Num (5 / 2)).
Proof.
  change [Num 1; Num 2; Num 3; Num 4] with (map Num [1; 2; 3; 4]).
  unfold percentile.
  rewrite (percentile_traced_reals [1; 2; 3; 4] [1; 2; 3; 4] 50);
    [| discriminate | simpl; decide_cmp].
  cbn [snd]. unfold spec_percentile. cbv zeta.
  replace (50 / 100 * (INR (length [1; 2; 3; 4]) - 1)) with (3 / 2)
    by (simpl; lra).
  rewrite (Zfloor_eq 1 (3 / 2)), (Zceil_eq 2 (3 / 2)) by lra.
  rewrite (index_IZR _ 1), (index_IZR _ 2) by lia.
  simpl. do 2 f_equal. lra.
Qed.

(** C3.  On a non-empty column of reals and for every [p], [percentile]
    sorts a copy of the column ascending and returns what the specification
    describes: with [pos = (p/100)(n-1)], [lower = floor pos] and
    [upper = ceil pos], the element [sorted[lower]] exactly when
    [lower = upper], and [sorted[lower](1-w) + sorted[upper]w] with
    [w = pos - lower] otherwise.  In particular the median of [1,2,3] is 2
    and the one of [1,2,3,4] is 2.5. *)
Theorem percentile_follows_spec (values : list R) (p : R) :
  values <> [] ->
  (exists sorted,
      Array_sort (fun a b => sub a b) (map Num values) = map Num sorted /\
      Permutation values sorted /\
      StronglySorted Rle sorted /\
      percentile (map Num values) (Num p) = spec_percentile sorted p /\
      let pos := p / 100 * (INR (length values) - 1) in
      (Zfloor pos = Zceil pos ->
       percentile_traced (map Num values) (Num p) =
         (ExactRank, index (map Num sorted) (Num (IZR (Zfloor pos))))) /\
      (Zfloor pos <> Zceil pos ->
       percentile_traced (map Num values) (Num p) =
         (Interpolated,
          Some (add (mul (to_number (index (map Num sorted)
                                       (Num (IZR (Zfloor pos)))))
                         (Num (1 - (pos - IZR (Zfloor pos)))))
                    (mul (to_number (index (map Num sorted)
                                       (Num (IZR (Zceil pos)))))
                         (Num (pos - IZR (Zfloor pos)))))))) /\
  percentile [Num 1; Num 2; Num 3] (Num 50) = Some (Num 2) /\
  percentile [Num 1; Num 2; Num 3; Num 4] (Num 50) = Some (Num (5 / 2)).
Proof.
  intros Hne. split; [|split; [exact percentile_1_2_3 | exact percentile_1_2_3_4]].
  destruct (Array_sort_reals values) as (sorted & Hsort & Hperm & Hs).
  exists sorted. repeat split; auto.
  - unfold percentile.
    rewrite (percentile_traced_reals _ _ _ Hne Hsort). reflexivity.
  - intros E. rewrite (percentile_traced_reals _ _ _ Hne Hsort).
    unfold spec_percentile.
    rewrite <- (Permutation_length Hperm).
    destruct (Z.eq_dec _ _) as [_ | N]; [reflexivity | contradiction].
  - intros E. rewrite (percentile_traced_reals _ _ _ Hne Hsort).
    unfold spec_percentile.
    rewrite <- (Permutation_length Hperm).
    destruct (Z.eq_dec _ _) as [N | _]; [contradiction | reflexivity].
Qed.

Lemma percentile_follows_spec_witness :
  exists sorted,
    Permutation [3; 1; 2] sorted /\ StronglySorted Rle sorted /\
    percentile (map Num [3; 1; 2]) (Num 50) = spec_percentile sorted 50.
Proof.
  destruct (percentile_follows_spec [3; 1; 2] 50)
    as [(sorted & _ & Hperm & Hs & Hp & _) _]; [discriminate|].
  exists sorted. auto.
Defined.

(** C8.  On the empty array [percentile] leaves through its guard and
    returns [NaN], a value and not the [undefined] of a read outside the
    array; on a non-empty array the guard is never the way out. *)
Theorem percentile_empty_guard :
  (forall p, percentile_traced [] p = (EmptyGuard, Some NaN)) /\
  (forall p, percentile [] p = Some NaN) /\
  (forall values p,
      values <> [] -> fst (percentile_traced values p) <> EmptyGuard).
Proof.
  assert (H0 : strict_eq (Num (INR (@length number []))) (Num 0) = true)
    by (apply strict_eq_Num; reflexivity).
  repeat split.
  - intros p. unfold percentile_traced. rewrite H0. reflexivity.
  - intros p. unfold percentile, percentile_traced. rewrite H0. reflexivity.
  - intros values p Hne. unfold percentile_traced.
    pose proof (INR_length_pos values Hne) as Hlen.
    unfold strict_eq at 1.
    destruct (Req_dec_T (INR (length values)) 0); [lra|].
    cbv zeta.
    match goal with
    | |- context [if ?c then (ExactRank, _) else _] => destruct c
    end; simpl; discriminate.
Qed.

Lemma percentile_empty_guard_witness :
  fst (percentile_traced [Num 7] (Num 5)) <> EmptyGuard.
Proof.
  apply (proj2 (proj2 percentile_empty_guard)). discriminate.
Defined.

(** C9, as the code has it.  [percentile] does not depend on the order of
    the column: on any permutation of a list of reals it returns what it
    returns on the list, for every [p].  ([mean] is left out: it adds from
    left to right in doubles, and the rounded sum depends on the order.) *)
Theorem percentile_permutation_invariance (l1 l2 : list R) (p : number) :
  Permutation l1 l2 ->
  percentile (map Num l2) p = percentile (map Num l1) p.
Proof.
  intros Hp. pose proof (Permutation_length Hp) as Hlen.
  unfold percentile, percentile_traced.
  rewrite !length_map, Hlen, (Array_sort_permutation _ _ Hp). reflexivity.
Qed.

Lemma percentile_permutation_invariance_witness :
  percentile (map Num [3; 1; 2]) (Num 50) =
    percentile (map Num [1; 2; 3]) (Num 50).
Proof.
  apply percentile_permutation_invariance.
  apply perm_trans with [1; 3; 2].
  - apply perm_skip, perm_swap.
  - apply perm_swap.
Defined.

(** C9, as the specification states it, fails for [mean]: on doubles the
    sum of 0.1, 0.2 and 0.3 taken from the left is not the sum taken from
    the right, so the mean of [0.1, 0.2, 0.3] is 0.20000000000000004 and
    the mean of its permutation [0.3, 0.2, 0.1] is 0.19999999999999998. *)
Lemma mean_depends_on_order :
  Permutation [0x1.999999999999ap-4; 0x1.999999999999ap-3;
               0x1.3333333333333p-2]%float
              [0x1.3333333333333p-2; 0x1.999999999999ap-3;
               0x1.999999999999ap-4]%float /\
  Double.mean [0x1.999999999999ap-4; 0x1.999999999999ap-3;
               0x1.3333333333333p-2]%float = 0x1.999999999999bp-3%float /\
  Double.mean [0x1.3333333333333p-2; 0x1.999999999999ap-3;
               0x1.999999999999ap-4]%float = 0x1.9999999999999p-3%float /\
  Double.mean [0x1.999999999999ap-4; 0x1.999999999999ap-3;
               0x1.3333333333333p-2]%float <>
  Double.mean [0x1.3333333333333p-2; 0x1.999999999999ap-3;
               0x1.999999999999ap-4]%float.
Proof.
  split; [|split; [|split]].
  - apply perm_trans with [0x1.999999999999ap-3; 0x1.999999999999ap-4;
                           0x1.3333333333333p-2]%float.
    + apply perm_swap.
    + apply perm_trans with [0x1.999999999999ap-3; 0x1.3333333333333p-2;
                             0x1.999999999999ap-4]%float.
      * apply perm_skip, perm_swap.
      * apply perm_swap.
  - vm_compute. reflexivity.
  - vm_compute. reflexivity.
  - intros H.
    assert (E : PrimFloat.eqb
                  (Double.mean [0x1.999999999999ap-4; 0x1.999999999999ap-3;
                                0x1.3333333333333p-2]%float)
                  (Double.mean [0x1.3333333333333p-2; 0x1.999999999999ap-3;
                                0x1.999999999999ap-4]%float) = false)
      by (vm_compute; reflexivity).
    rewrite H in E. vm_compute in E. discriminate E.
Qed.

(** ** Arrays written by index *)

Lemma array_set_map_seq {A} (hole : A) (f : nat -> A) (m : nat) :
  forall a k v,
    (k < m)%nat ->
    array_set hole (map f (seq a m)) k v =
      map (fun c => if (c =? a + k)%nat then v else f c) (seq a m).
Proof.
  induction m as [|m IH]; intros a k v Hk; [lia|].
  destruct k as [|k]; simpl.
  - rewrite Nat.add_0_r, Nat.eqb_refl. f_equal.
    apply map_ext_in. intros c Hc. apply in_seq in Hc.
    destruct (Nat.eqb_spec c a); [lia | reflexivity].
  - destruct (Nat.eqb_spec a (a + S k)); [lia|]. f_equal.
    rewrite IH by lia. apply map_ext. intros c.
    replace (S a + k)%nat with (a + S k)%nat by lia. reflexivity.
Qed.

Lemma nth_error_map_seq {A} (f : nat -> A) (m k : nat) :
  (k < m)%nat -> nth_error (map f (seq 0 m)) k = Some (f k).
Proof.
  intros Hk. rewrite nth_error_map, nth_error_seq.
  destruct (Nat.ltb_spec k m); [reflexivity | lia].
Qed.

Lemma repeat_map_seq {A} (x : A) (m : nat) :
  forall a, repeat x m = map (fun _ => x) (seq a m).
Proof.
  induction m as [|m IH]; intros a; simpl; [reflexivity|].
  f_equal. apply IH.
Qed.

(** ** The random source *)

Section Simulation.

Variable random : nat -> R.
Variable fuel : nat.

(** [Math.random] returns numbers from 0 inclusive to 1 exclusive, and no
    run of [fuel] consecutive results is all zeros. *)
Hypothesis random_range : forall k, 0 <= random k < 1.
Hypothesis random_nonzero :
  forall k, exists j, (j < fuel)%nat /\ random (k + j)%nat <> 0.

Lemma while_zero_exit (n : nat) (r : R) (s : nat) :
  r <> 0 -> while_zero random n (Num r) s = Done (Num r) s.
Proof.
  intros Hr. destruct n; simpl; unfold strict_eq;
    destruct (Req_dec_T r 0); try contradiction; reflexivity.
Qed.

Lemma while_zero_done (n : nat) :
  forall s,
    (exists j, (j < n)%nat /\ random (s + j) <> 0) ->
    exists u s',
      while_zero random n (Num 0) s = Done (Num u) s' /\ 0 < u < 1.
Proof.
  induction n as [|n IH]; intros s (j & Hj & Hnz); [lia|].
  simpl. unfold strict_eq. destruct (Req_dec_T 0 0) as [_ | N]; [|lra].
  unfold bind, Math_random.
  destruct (Req_dec_T (random s) 0) as [Hz | Hz].
  - rewrite Hz. apply IH.
    destruct j as [|j]; [rewrite Nat.add_0_r in Hnz; contradiction|].
    exists j. split; [lia|].
    replace (S s + j)%nat with (s + S j)%nat by lia. exact Hnz.
  - rewrite while_zero_exit by exact Hz.
    exists (random s), (S s). split; [reflexivity|].
    pose proof (random_range s). lra.
Qed.

Lemma gaussianRandom_done (s : nat) :
  exists z s', gaussianRandom random fuel s = Done (Num z) s'.
Proof.
  unfold gaussianRandom, bind.
  destruct (while_zero_done fuel s (random_nonzero s)) as (u & s1 & -> & Hu).
  destruct (while_zero_done fuel s1 (random_nonzero s1)) as (v & s2 & -> & Hv).
  unfold ret, Math_log. destruct (Rlt_dec 0 u) as [_ | N]; [|lra].
  assert (Hln : ln u < 0).
  { rewrite <- ln_1. apply ln_increasing; lra. }
  simpl. destruct (Rlt_dec (-2.0 * ln u) 0) as [N | _]; [lra|].
  simpl. eexists. eexists. reflexivity.
Qed.

Lemma gaussianRandom_value (s : nat) :
  gaussianRandom random fuel s =
    Done (gauss_value random fuel s) (gauss_next random fuel s).
Proof.
  unfold gauss_value, gauss_next.
  destruct (gaussianRandom_done s) as (z & s' & ->). reflexivity.
Qed.

Lemma gauss_value_finite (s : nat) :
  exists z, gauss_value random fuel s = Num z.
Proof.
  unfold gauss_value.
  destruct (gaussianRandom_done s) as (z & s' & ->). eauto.
Qed.

Lemma draw_finite (k s0 : nat) : exists z, draw random fuel k s0 = Num z.
Proof. apply gauss_value_finite. Qed.

Lemma state_after_S (k s0 : nat) :
  state_after random fuel (S k) s0 =
    gauss_next random fuel (state_after random fuel k s0).
Proof. reflexivity. Qed.

(** The calls of [gaussianRandom] in a row return the draws in order. *)
Lemma times_gaussianRandom (k : nat) :
  forall j s0,
    times k (gaussianRandom random fuel) (state_after random fuel j s0) =
      Done (map (fun i => draw random fuel i s0) (seq j k))
           (state_after random fuel (j + k) s0).
Proof.
  induction k as [|k IH]; intros j s0; simpl.
  - rewrite Nat.add_0_r. reflexivity.
  - unfold bind. rewrite gaussianRandom_value, <- state_after_S, (IH (S j)).
    unfold ret. f_equal. f_equal. lia.
Qed.

(** ** The loops of the simulation *)

Variables (valorBase volatilidad : number) (n d s0 : nat).

Local Abbreviation precio := (precio_en random fuel valorBase volatilidad n s0).
Local Abbreviation fila := (fila_tras random fuel valorBase volatilidad n d s0).
Local Abbreviation matriz := (matriz_en random fuel valorBase volatilidad n d s0).
Local Abbreviation estado k := (state_after random fuel k s0).

Lemma fila_tras_step (t i : nat) :
  (t < d)%nat ->
  array_set NaN (fila t i) (S t) (precio i (S t)) = fila (S t) i.
Proof.
  intros Ht. unfold fila_tras. rewrite array_set_map_seq by lia.
  apply map_ext. intros c. simpl Nat.add.
  destruct (Nat.eqb_spec c (S t)) as [-> | Hc].
  - rewrite Nat.leb_refl. reflexivity.
  - destruct (Nat.leb_spec c t), (Nat.leb_spec c (S t)); try reflexivity; lia.
Qed.

Lemma matriz_en_step (t i : nat) :
  (i < n)%nat ->
  array_set [] (matriz t i) i (fila (S t) i) = matriz t (S i).
Proof.
  intros Hi. unfold matriz_en. rewrite array_set_map_seq by lia.
  apply map_ext. intros j. simpl Nat.add.
  destruct (Nat.eqb_spec j i) as [-> | Hj].
  - destruct (Nat.ltb_spec i (S i)); [reflexivity | lia].
  - destruct (Nat.ltb_spec j i), (Nat.ltb_spec j (S i)); try reflexivity; lia.
Qed.

Lemma matriz_en_full (t : nat) : matriz t n = matriz (S t) 0.
Proof.
  unfold matriz_en. apply map_ext_in. intros j Hj. apply in_seq in Hj.
  destruct (Nat.ltb_spec j n); [|lia]. reflexivity.
Qed.

(** One pass through the body of the inner loop. *)
Lemma paso_trayectoria_done (t i : nat) :
  (t < d)%nat -> (i < n)%nat ->
  paso_trayectoria random fuel
    (div (div volatilidad (Num 100)) (Math_sqrt (Num 252)))
    (div (Num 1) (Num 252)) (Num 0) (S t) i
    (matriz t i) (estado (t * n + i)) =
  Done (matriz t (S i)) (estado (S (t * n + i))).
Proof.
  intros Ht Hi. unfold paso_trayectoria, bind.
  rewrite gaussianRandom_value.
  rewrite <- state_after_S.
  assert (Hrow : nth_error (matriz t i) i = Some (fila t i)).
  { unfold matriz_en. rewrite nth_error_map_seq by exact Hi.
    rewrite Nat.ltb_irrefl. reflexivity. }
  rewrite Hrow.
  assert (Hprev : nth_error (fila t i) (S t - 1) = Some (precio i t)).
  { replace (S t - 1)%nat with t by lia.
    unfold fila_tras. rewrite nth_error_map_seq by lia.
    rewrite Nat.leb_refl. reflexivity. }
  rewrite Hprev. unfold ret. f_equal.
  rewrite <- matriz_en_step by exact Hi. f_equal.
  rewrite <- fila_tras_step by exact Ht. reflexivity.
Qed.

(** The inner loop, from trajectory [i] on. *)
Lemma inner_loop (t k : nat) :
  (t < d)%nat ->
  forall i,
    (i + k <= n)%nat ->
    for_each (seq i k)
      (paso_trayectoria random fuel
         (div (div volatilidad (Num 100)) (Math_sqrt (Num 252)))
         (div (Num 1) (Num 252)) (Num 0) (S t))
      (matriz t i) (estado (t * n + i)) =
    Done (matriz t (i + k)) (estado (t * n + (i + k))).
Proof.
  intros Ht. induction k as [|k IH]; intros i Hik; cbn [for_each seq].
  - rewrite Nat.add_0_r. reflexivity.
  - unfold bind. rewrite paso_trayectoria_done by lia.
    replace (S (t * n + i)) with (t * n + S i)%nat by lia.
    rewrite IH by lia. f_equal; f_equal; lia.
Qed.

(** The outer loop, from step [t + 1] on. *)
Lemma outer_loop (k : nat) :
  forall t,
    (t + k <= d)%nat ->
    for_each (seq (S t) k)
      (fun paso arr =>
         for_each (seq 0 n)
           (paso_trayectoria random fuel
              (div (div volatilidad (Num 100)) (Math_sqrt (Num 252)))
              (div (Num 1) (Num 252)) (Num 0) paso)
           arr)
      (matriz t 0) (estado (t * n)) =
    Done (matriz (t + k) 0) (estado ((t + k) * n)).
Proof.
  induction k as [|k IH]; intros t Htk; cbn [for_each seq].
  - rewrite Nat.add_0_r. reflexivity.
  - unfold bind.
    pose proof (inner_loop t n) as Hin. specialize (Hin ltac:(lia) 0%nat ltac:(lia)).
    rewrite Nat.add_0_r in Hin. simpl Nat.add in Hin. rewrite Hin.
    rewrite matriz_en_full.
    replace (t * n + n)%nat with (S t * n)%nat by lia.
    rewrite IH by lia. f_equal; f_equal; lia.
Qed.

(** The matrix before the first step is the one [Array.from] builds. *)
Lemma matriz_en_initial :
  repeat (repeat valorBase (S d)) n = matriz 0 0.
Proof.
  unfold matriz_en. rewrite (repeat_map_seq _ n 0%nat).
  apply map_ext. intros j. cbn [Nat.ltb Nat.leb].
  unfold fila_tras. replace (d + 1)%nat with (S d) by lia.
  rewrite (repeat_map_seq _ (S d) 0%nat).
  apply map_ext. intros c. destruct c; reflexivity.
Qed.

Lemma Zfloor_INR (k : nat) : Zfloor (INR k) = Z.of_nat k.
Proof. rewrite INR_IZR_INZ. apply ZfloorZ. Qed.

Lemma Zceil_INR (k : nat) : Zceil (INR k) = Z.of_nat k.
Proof. unfold Zceil. rewrite INR_IZR_INZ, ZfloorNZ. lia. Qed.

Lemma is_integer_INR (k : nat) : is_integer (INR k) = true.
Proof. rewrite INR_IZR_INZ. apply is_integer_IZR. Qed.

Lemma times_ret {A} (x : A) (k : nat) (s : nat) :
  times k (ret x) s = Done (repeat x k) s.
Proof.
  induction k as [|k IH]; simpl; [reflexivity|].
  unfold bind, ret in *. rewrite IH. reflexivity.
Qed.

Lemma Array_fill_INR (k : nat) (v : number) :
  INR k <= 4294967295 -> Array_fill (Num (INR k)) v = ret (repeat v k).
Proof.
  intros Hk. unfold Array_fill. rewrite is_integer_INR, Zfloor_INR, Nat2Z.id.
  pose proof (pos_INR k).
  destruct (Rle_dec 0 (INR k)); [|lra].
  destruct (Rle_dec (INR k) 4294967295); [|lra]. reflexivity.
Qed.

Lemma Array_from_INR {A} (k : nat) (x : A) (s : nat) :
  INR k <= 4294967295 ->
  Array_from (Num (INR k)) (ret x) s = Done (repeat x k) s.
Proof.
  intros Hk. unfold Array_from.
  assert (Hlen : ToLength (Num (INR k)) = Z.of_nat k).
  { unfold ToLength. destruct (Rle_dec (INR k) 0) as [H0 | H0].
    - pose proof (pos_INR k).
      assert (E : INR k = 0) by lra. apply INR_eq with (m := 0%nat) in E.
      subst k. reflexivity.
    - rewrite Zfloor_INR. apply Z.min_l.
      apply le_IZR. rewrite <- INR_IZR_INZ. lra. }
  rewrite Hlen, Nat2Z.id.
  assert (Hle : (Z.of_nat k <= 4294967295)%Z).
  { apply le_IZR. rewrite <- INR_IZR_INZ. exact Hk. }
  replace (4294967295 <? Z.of_nat k)%Z with false
    by (symmetry; apply Z.ltb_ge; exact Hle).
  apply times_ret.
Qed.

Lemma range_le_INR (k : nat) : range_le 1 (Num (INR k)) = seq 1 k.
Proof. unfold range_le. rewrite Zfloor_INR. f_equal. lia. Qed.

Lemma range_lt_INR (k : nat) : range_lt 0 (Num (INR k)) = seq 0 k.
Proof. unfold range_lt. rewrite Zceil_INR. f_equal. lia. Qed.

(** The whole simulation, for a whole number of days and of trajectories. *)
Lemma simular_run :
  INR d + 1 <= 4294967295 -> INR n <= 4294967295 ->
  exists res,
    simular random fuel valorBase volatilidad (Num (INR d)) (Num (INR n)) s0 =
      Done (NextResponse_json (ResultBody res) 200) (estado (d * n)) /\
    res_simulaciones res = matriz d 0 /\
    let preciosFinales :=
      map (fun fila => to_number (index fila (Num (INR d)))) (matriz d 0) in
    let cambios :=
      map (fun v => div (sub v valorBase) valorBase) preciosFinales in
    res_var_95 res =
      mul valorBase (Math_abs (to_number (percentile cambios (Num 5)))) /\
    res_var_percentaje res =
      mul (to_number (percentile cambios (Num 5))) (Num 100).
Proof.
  intros Hd Hn. unfold simular. cbv zeta.
  unfold bind at 1.
  replace (add (Num (INR d)) (Num 1)) with (Num (INR (S d)))
    by (rewrite S_INR; reflexivity).
  rewrite Array_fill_INR by (rewrite S_INR; exact Hd).
  rewrite Array_from_INR by exact Hn.
  rewrite matriz_en_initial, range_le_INR, range_lt_INR.
  unfold bind at 1.
  pose proof (outer_loop d 0%nat ltac:(lia)) as Hloop.
  simpl Nat.add in Hloop. simpl Nat.mul in Hloop.
  change (estado 0) with s0 in Hloop. rewrite Hloop.
  unfold ret. eexists. split; [reflexivity|]. simpl. auto.
Qed.

End Simulation.

(** ** Prices are finite and positive *)

Lemma factor_paso_reals (v z : R) :
  factor_paso (Num v) (Num z) = Num (spec_step_factor v z).
Proof.
  unfold factor_paso, spec_step_factor, spec_daily_vol.
  assert (Hs : 0 < sqrt 252) by (apply sqrt_lt_R0; lra).
  unfold Math_sqrt, div.
  destruct (Req_dec_T 100 0); [lra|].
  destruct (Rlt_dec 252 0); [lra|].
  destruct (Req_dec_T (sqrt 252) 0); [lra|].
  destruct (Req_dec_T 252 0); [lra|].
  destruct (Rlt_dec (1 / 252) 0); [lra|].
  simpl. do 2 f_equal. ring.
Qed.

Lemma precio_en_positive random fuel (p v : R) (n s0 i t : nat) :
  well_behaved_source random fuel -> 0 < p ->
  exists r, precio_en random fuel (Num p) (Num v) n s0 i t = Num r /\ 0 < r.
Proof.
  intros [Hrange Hnz] Hp. induction t as [|t (r & IH & Hr)]; simpl.
  - exists p. auto.
  - destruct (draw_finite random fuel Hrange Hnz (t * n + i) s0) as [z Hz].
    rewrite IH, Hz, factor_paso_reals. simpl.
    eexists. split; [reflexivity|].
    apply Rmult_lt_0_compat; [exact Hr|]. apply exp_pos.
Qed.

Lemma finite_list (xs : list number) :
  Forall (fun x => exists r, x = Num r) xs -> exists l, xs = map Num l.
Proof.
  induction 1 as [|x xs [r ->] _ [l ->]].
  - exists []. reflexivity.
  - exists (r :: l). reflexivity.
Qed.

(** For [p] from 0 to 100 both ranks are indices of the sorted column, so
    the percentile of a non-empty column of reals is a real. *)
Lemma spec_percentile_defined (sorted : list R) (p : R) :
  sorted <> [] -> 0 <= p <= 100 ->
  exists r, spec_percentile sorted p = Some (Num r).
Proof.
  intros Hne Hp. unfold spec_percentile. cbv zeta.
  pose proof (INR_length_pos sorted Hne) as Hlen.
  set (pos := p / 100 * (INR (length sorted) - 1)).
  assert (Hpos : 0 <= pos <= INR (length sorted) - 1).
  { unfold pos. split; [apply Rmult_le_pos; lra|].
    rewrite <- (Rmult_1_l (INR (length sorted) - 1)) at 2.
    apply Rmult_le_compat_r; lra. }
  assert (Hlo : (0 <= Zfloor pos)%Z) by (apply Zfloor_lub; simpl; lra).
  assert (Hup0 : (Zfloor pos <= Zceil pos)%Z).
  { apply le_IZR. pose proof (Zfloor_ceil_bound pos). lra. }
  assert (Hup : (Zceil pos <= Z.of_nat (length sorted) - 1)%Z).
  { unfold Zceil.
    assert (H : (- (Z.of_nat (length sorted) - 1) <= Zfloor (- pos))%Z).
    { apply Zfloor_lub. rewrite opp_IZR, minus_IZR, <- INR_IZR_INZ. lra. }
    lia. }
  assert (Hat : forall k, (0 <= k <= Z.of_nat (length sorted) - 1)%Z ->
                     exists x, index (map Num sorted) (Num (IZR k)) = Some (Num x)).
  { intros k Hk. rewrite index_IZR by lia. rewrite nth_error_map.
    destruct (nth_error sorted (Z.to_nat k)) as [x|] eqn:E.
    - exists x. reflexivity.
    - apply nth_error_None in E. lia. }
  destruct (Hat (Zfloor pos)) as [x Hx]; [lia|].
  destruct (Hat (Zceil pos)) as [y Hy]; [lia|].
  rewrite Hx, Hy. destruct (Z.eq_dec _ _); simpl; eauto.
Qed.

Lemma percentile_defined (l : list R) (p : R) :
  l <> [] -> 0 <= p <= 100 ->
  exists r, percentile (map Num l) (Num p) = Some (Num r).
Proof.
  intros Hne Hp.
  destruct (Array_sort_reals l) as (sorted & Hsort & Hperm & _).
  unfold percentile. rewrite (percentile_traced_reals _ _ _ Hne Hsort).
  apply spec_percentile_defined; [|exact Hp].
  intros ->. apply Permutation_sym, Permutation_nil in Hperm. contradiction.
Qed.

(** ** [POST] on valid parameters *)

Lemma IZR_INR_to_nat (z : Z) : (0 <= z)%Z -> IZR z = INR (Z.to_nat z).
Proof. intros Hz. rewrite INR_IZR_INZ, Z2Nat.id by exact Hz. reflexivity. Qed.

Lemma valid_parameters_accepted (p v : R) (d n : Z) :
  valid_parameters p v d n -> accepted (request p v d n).
Proof.
  intros (Hp & Hv & Hd & Hn). apply validaciones_in_range; auto.
  - split; apply IZR_le; lia.
  - split; apply IZR_le; lia.
Qed.

Lemma POST_valid random fuel (p v : R) (d n : Z) (s0 : nat) :
  well_behaved_source random fuel -> valid_parameters p v d n ->
  exists res,
    POST random fuel (request p v d n) s0 =
      Done (NextResponse_json (ResultBody res) 200)
           (state_after random fuel (Z.to_nat d * Z.to_nat n) s0) /\
    res_simulaciones res =
      matriz_en random fuel (Num p) (Num v) (Z.to_nat n) (Z.to_nat d) s0
                (Z.to_nat d) 0 /\
    let preciosFinales :=
      map (fun fila => to_number (index fila (Num (IZR d))))
          (res_simulaciones res) in
    let cambios :=
      map (fun x => div (sub x (Num p)) (Num p)) preciosFinales in
    res_var_95 res =
      mul (Num p) (Math_abs (to_number (percentile cambios (Num 5)))) /\
    res_var_percentaje res =
      mul (to_number (percentile cambios (Num 5))) (Num 100).
Proof.
  intros [Hrange Hnz] Hvalid.
  pose proof (valid_parameters_accepted _ _ _ _ Hvalid) as Ha.
  destruct Hvalid as (Hp & Hv & Hd & Hn).
  rewrite (POST_accepted _ _ _ Ha). unfold request, numeric. simpl as_number.
  rewrite (IZR_INR_to_nat d), (IZR_INR_to_nat n) by lia.
  assert (Hd' : INR (Z.to_nat d) + 1 <= 4294967295).
  { rewrite <- IZR_INR_to_nat by lia.
    assert (IZR d <= 365) by (apply IZR_le; lia). lra. }
  assert (Hn' : INR (Z.to_nat n) <= 4294967295).
  { rewrite <- IZR_INR_to_nat by lia.
    assert (IZR n <= 10000) by (apply IZR_le; lia). lra. }
  destruct (simular_run random fuel Hrange Hnz (Num p) (Num v)
              (Z.to_nat n) (Z.to_nat d) s0 Hd' Hn')
    as (res & Hrun & Hsim & Hvar & Hpct).
  exists res. unfold try_catch. rewrite Hrun.
  split; [reflexivity|]. split; [exact Hsim|].
  cbv zeta. rewrite Hsim. split; [exact Hvar | exact Hpct].
Qed.

Lemma matriz_en_rows random fuel valorBase volatilidad (n d s0 t : nat) :
  matriz_en random fuel valorBase volatilidad n d s0 t 0 =
    map (fila_tras random fuel valorBase volatilidad n d s0 t) (seq 0 n).
Proof. unfold matriz_en. apply map_ext. intros j. reflexivity. Qed.

Lemma fila_tras_full random fuel valorBase volatilidad (n d s0 i : nat) :
  fila_tras random fuel valorBase volatilidad n d s0 d i =
    map (precio_en random fuel valorBase volatilidad n s0 i) (seq 0 (d + 1)).
Proof.
  unfold fila_tras. apply map_ext_in. intros c Hc. apply in_seq in Hc.
  destruct (Nat.leb_spec c d); [reflexivity | lia].
Qed.

(** C1.  For valid parameters [POST] answers with status 200 and a matrix
    of [pathCount] rows; every row has [horizonDays + 1] entries, all of
    them finite and strictly positive, and its entry 0 is [currentPrice]. *)
Theorem trajectory_matrix_shape random fuel (p v : R) (d n : Z) (s0 : nat) :
  well_behaved_source random fuel -> valid_parameters p v d n ->
  exists res s',
    POST random fuel (request p v d n) s0 =
      Done (NextResponse_json (ResultBody res) 200) s' /\
    length (res_simulaciones res) = Z.to_nat n /\
    Forall (fun row =>
              length row = Z.to_nat (d + 1) /\
              Forall positive row /\
              nth_error row 0 = Some (Num p))
           (res_simulaciones res).
Proof.
  intros Hsrc Hvalid.
  destruct (POST_valid random fuel p v d n s0 Hsrc Hvalid)
    as (res & Hpost & Hsim & _).
  destruct Hvalid as (Hp & Hv & Hd & Hn).
  exists res. eexists. split; [exact Hpost|].
  rewrite Hsim, matriz_en_rows. split.
  - rewrite length_map, length_seq. reflexivity.
  - apply Forall_forall. intros row Hrow.
    apply in_map_iff in Hrow. destruct Hrow as (i & <- & _).
    rewrite fila_tras_full. repeat split.
    + rewrite length_map, length_seq. lia.
    + apply Forall_forall. intros x Hx.
      apply in_map_iff in Hx. destruct Hx as (c & <- & _).
      destruct (precio_en_positive random fuel p v (Z.to_nat n) s0 i c Hsrc Hp)
        as (r & -> & Hr).
      exact Hr.
    + replace (Z.to_nat d + 1)%nat with (S (Z.to_nat d)) by lia. reflexivity.
Qed.

Lemma constant_half_well_behaved : well_behaved_source constant_half 1.
Proof.
  split.
  - intros k. unfold constant_half. lra.
  - intros k. exists 0%nat. split; [lia|]. unfold constant_half. lra.
Qed.

Lemma valid_parameters_example : valid_parameters 100 20 1 100.
Proof. unfold valid_parameters. repeat split; try lra; lia. Qed.

Lemma trajectory_matrix_shape_witness :
  exists res s',
    POST constant_half 1 (request 100 20 1 100) 0%nat =
      Done (NextResponse_json (ResultBody res) 200) s' /\
    length (res_simulaciones res) = Z.to_nat 100 /\
    Forall (fun row =>
              length row = Z.to_nat (1 + 1) /\
              Forall positive row /\
              nth_error row 0 = Some (Num 100))
           (res_simulaciones res).
Proof.
  apply trajectory_matrix_shape.
  - exact constant_half_well_behaved.
  - exact valid_parameters_example.
Defined.

(** C2.  For valid parameters, every trajectory [i] and every step [t] from
    1 to [horizonDays]: the price at [t] is the price at [t - 1] times
    [exp ((0 - 0.5 dailyVol^2) deltaT + dailyVol sqrt(deltaT) z)], where
    [z] is the draw of [gaussianRandom] of that pair, the one numbered
    [(t - 1) pathCount + i] among the calls that [POST] makes; the calls
    are [horizonDays * pathCount] in all, and two pairs never share one. *)
Theorem step_recurrence random fuel (p v : R) (d n : Z) (s0 : nat) :
  well_behaved_source random fuel -> valid_parameters p v d n ->
  exists res,
    POST random fuel (request p v d n) s0 =
      Done (NextResponse_json (ResultBody res) 200)
           (state_after random fuel (Z.to_nat d * Z.to_nat n) s0) /\
    times (Z.to_nat d * Z.to_nat n) (gaussianRandom random fuel) s0 =
      Done (map (fun k => draw random fuel k s0)
                (seq 0 (Z.to_nat d * Z.to_nat n)))
           (state_after random fuel (Z.to_nat d * Z.to_nat n) s0) /\
    (forall i t,
        (i < Z.to_nat n)%nat -> (1 <= t <= Z.to_nat d)%nat ->
        exists row prev z,
          nth_error (res_simulaciones res) i = Some row /\
          nth_error row (t - 1) = Some (Num prev) /\
          draw random fuel ((t - 1) * Z.to_nat n + i) s0 = Num z /\
          nth_error row t = Some (Num (prev * spec_step_factor v z))) /\
    (forall i t i' t',
        (i < Z.to_nat n)%nat -> (i' < Z.to_nat n)%nat ->
        ((t - 1) * Z.to_nat n + i = (t' - 1) * Z.to_nat n + i')%nat ->
        (1 <= t)%nat -> (1 <= t')%nat ->
        i = i' /\ t = t').
Proof.
  intros Hsrc Hvalid.
  destruct (POST_valid random fuel p v d n s0 Hsrc Hvalid)
    as (res & Hpost & Hsim & _).
  destruct Hvalid as (Hp & Hv & Hd & Hn).
  exists res. split; [exact Hpost|]. split; [|split].
  - destruct Hsrc as [Hrange Hnz].
    apply (times_gaussianRandom random fuel Hrange Hnz _ 0%nat s0).
  - intros i t Hi Ht.
    rewrite Hsim, matriz_en_rows.
    exists (fila_tras random fuel (Num p) (Num v) (Z.to_nat n) (Z.to_nat d) s0
              (Z.to_nat d) i).
    destruct (precio_en_positive random fuel p v (Z.to_nat n) s0 i (t - 1)
                Hsrc Hp) as (prev & Hprev & _).
    destruct Hsrc as [Hrange Hnz].
    destruct (draw_finite random fuel Hrange Hnz ((t - 1) * Z.to_nat n + i) s0)
      as [z Hz].
    exists prev, z. repeat split.
    + rewrite nth_error_map_seq by exact Hi. reflexivity.
    + rewrite fila_tras_full, nth_error_map_seq by lia. rewrite Hprev.
      reflexivity.
    + exact Hz.
    + rewrite fila_tras_full, nth_error_map_seq by lia.
      destruct t as [|t]; [lia|].
      replace (S t - 1)%nat with t in * by lia.
      simpl. rewrite Hprev, Hz, factor_paso_reals. reflexivity.
  - intros i t i' t' Hi Hi' E Ht Ht'.
    assert (Ht1 : (t - 1 = t' - 1)%nat) by nia.
    split; [|lia]. rewrite Ht1 in E. lia.
Qed.

Lemma step_recurrence_witness :
  exists res,
    POST constant_half 1 (request 100 20 1 100) 0%nat =
      Done (NextResponse_json (ResultBody res) 200)
           (state_after constant_half 1 (Z.to_nat 1 * Z.to_nat 100) 0%nat) /\
    exists row prev z,
      nth_error (res_simulaciones res) 7 = Some row /\
      nth_error row 0 = Some (Num prev) /\
      draw constant_half 1 7 0%nat = Num z /\
      nth_error row 1 = Some (Num (prev * spec_step_factor 20 z)).
Proof.
  destruct (step_recurrence constant_half 1 100 20 1 100 0%nat
              constant_half_well_behaved valid_parameters_example)
    as (res & Hpost & _ & Hstep & _).
  exists res. split; [exact Hpost|].
  apply (Hstep 7%nat 1%nat); lia.
Defined.

(** ** Value at risk *)

Lemma terminal_returns_finite random fuel (p v : R) (d n : Z) (s0 : nat) :
  well_behaved_source random fuel -> valid_parameters p v d n ->
  exists l,
    l <> [] /\
    terminal_returns p d
      (matriz_en random fuel (Num p) (Num v) (Z.to_nat n) (Z.to_nat d) s0
                 (Z.to_nat d) 0) = map Num l.
Proof.
  intros Hsrc (Hp & Hv & Hd & Hn).
  set (rows := matriz_en _ _ _ _ _ _ _ _ _).
  assert (Hfin : Forall (fun x => exists r, x = Num r) (terminal_returns p d rows)).
  { apply Forall_forall. intros x Hx. unfold terminal_returns in Hx.
    apply in_map_iff in Hx. destruct Hx as (row & <- & Hrow).
    unfold rows in Hrow. rewrite matriz_en_rows in Hrow.
    apply in_map_iff in Hrow. destruct Hrow as (i & <- & _).
    rewrite index_IZR by lia.
    rewrite fila_tras_full, nth_error_map_seq by lia.
    destruct (precio_en_positive random fuel p v (Z.to_nat n) s0 i (Z.to_nat d)
                Hsrc Hp) as (r & -> & _).
    simpl. destruct (Req_dec_T p 0); [lra|]. eauto. }
  destruct (finite_list _ Hfin) as [l Hl].
  exists l. split; [|exact Hl].
  intros ->. apply (f_equal (@length number)) in Hl.
  unfold terminal_returns, rows in Hl.
  rewrite length_map, matriz_en_rows, length_map, length_seq in Hl.
  simpl in Hl. lia.
Qed.

(** C4.  For valid parameters the 5th percentile of the terminal relative
    returns is a real [pRisk]; the VaR amount is [currentPrice * |pRisk|],
    which is never negative whatever the sign of [pRisk], and the VaR
    percentage is [pRisk * 100], with the sign of [pRisk]. *)
Theorem value_at_risk random fuel (p v : R) (d n : Z) (s0 : nat) :
  well_behaved_source random fuel -> valid_parameters p v d n ->
  exists res s' pRisk,
    POST random fuel (request p v d n) s0 =
      Done (NextResponse_json (ResultBody res) 200) s' /\
    percentile (terminal_returns p d (res_simulaciones res)) (Num 5) =
      Some (Num pRisk) /\
    res_var_95 res = Num (p * Rabs pRisk) /\
    0 <= p * Rabs pRisk /\
    res_var_percentaje res = Num (pRisk * 100) /\
    (pRisk < 0 -> pRisk * 100 < 0) /\
    (0 < pRisk -> 0 < pRisk * 100).
Proof.
  intros Hsrc Hvalid.
  destruct (POST_valid random fuel p v d n s0 Hsrc Hvalid)
    as (res & Hpost & Hsim & Hvar & Hpct).
  destruct (terminal_returns_finite random fuel p v d n s0 Hsrc Hvalid)
    as (l & Hne & Hl).
  destruct (percentile_defined l 5 Hne ltac:(lra)) as [pRisk HpRisk].
  destruct Hvalid as (Hp & _).
  assert (Hcambios :
            map (fun x => div (sub x (Num p)) (Num p))
                (map (fun fila => to_number (index fila (Num (IZR d))))
                     (res_simulaciones res)) =
              terminal_returns p d (res_simulaciones res)).
  { unfold terminal_returns. rewrite map_map. reflexivity. }
  rewrite Hcambios in Hvar, Hpct. rewrite Hsim in Hvar, Hpct.
  rewrite Hl, HpRisk in Hvar, Hpct. simpl in Hvar, Hpct.
  exists res. eexists. exists pRisk.
  split; [exact Hpost|].
  split; [rewrite Hsim, Hl; exact HpRisk|].
  split; [exact Hvar|].
  split; [apply Rmult_le_pos; [lra | apply Rabs_pos]|].
  split; [exact Hpct|].
  split; intros; lra.
Qed.

Lemma value_at_risk_witness :
  exists res s' pRisk,
    POST constant_half 1 (request 100 20 1 100) 0%nat =
      Done (NextResponse_json (ResultBody res) 200) s' /\
    percentile (terminal_returns 100 1 (res_simulaciones res)) (Num 5) =
      Some (Num pRisk) /\
    res_var_95 res = Num (100 * Rabs pRisk) /\
    0 <= 100 * Rabs pRisk.
Proof.
  destruct (value_at_risk constant_half 1 100 20 1 100 0%nat
              constant_half_well_behaved valid_parameters_example)
    as (res & s' & pRisk & H1 & H2 & H3 & H4 & _).
  exists res, s', pRisk. auto.
Defined.

(** ** Fractional days and trajectory counts pass the validation *)

(** C6, as the code has it.  The validation tests the ranges of [dias] and
    [simulaciones] and nothing else: with a valid price and volatility,
    every [dias] in [1, 365] and every [simulaciones] in [100, 10000] is
    accepted, integer or not, and whatever [POST] then answers is no
    rejection. *)
Theorem validation_ignores_integrality (p v d n : R) :
  0 < p -> 0 <= v <= 200 -> 1 <= d <= 365 -> 100 <= n <= 10000 ->
  accepted (numeric (Num p) (Num v) (Num d) (Num n)) /\
  forall random fuel s r s',
    POST random fuel (numeric (Num p) (Num v) (Num d) (Num n)) s = Done r s' ->
    forall msg, r <> bad_request msg.
Proof.
  intros Hp Hv Hd Hn.
  assert (Ha : accepted (numeric (Num p) (Num v) (Num d) (Num n)))
    by (apply validaciones_in_range; assumption).
  split; [exact Ha|]. intros random fuel s r s'.
  apply POST_accepted_not_400. exact Ha.
Qed.

Lemma validation_ignores_integrality_witness :
  is_integer (3 / 2) = false /\
  accepted (numeric (Num 100) (Num 20) (Num (3 / 2)) (Num 1000)).
Proof.
  split; [exact is_integer_three_halves|].
  apply (validation_ignores_integrality 100 20 (3 / 2) 1000); lra.
Defined.

(** C6, as the specification states it, fails: with [dias] = 1.5 and the
    other fields valid the body is not rejected. *)
Lemma fractional_days_not_rejected :
  is_integer (3 / 2) = false /\
  ~ rejected (numeric (Num 100) (Num 20) (Num (3 / 2)) (Num 1000)).
Proof.
  split; [exact is_integer_three_halves|].
  intros [msg H].
  rewrite validaciones_in_range in H by lra. discriminate H.
Qed.

(** * Further properties of the route *)

(** ** The set of accepted bodies *)

(** X1.  The validation accepts exactly the bodies whose four fields are
    all numbers, each of them [NaN] or inside its range; every other body
    is rejected with status 400 and one of the five messages, and no body
    is both. *)
Theorem accepted_characterisation (b : body) :
  (accepted b <->
   exists p v d n,
     b = numeric p v d n /\
     nan_or price_range p /\ nan_or volatility_range v /\
     nan_or days_range d /\ nan_or paths_range n) /\
  (rejected b <-> ~ accepted b) /\
  (forall msg,
      validaciones b = Some (bad_request msg) -> In msg rejection_messages).
Proof.
  assert (Hmsg : forall r, validaciones b = Some r ->
                      exists msg, r = bad_request msg /\ In msg rejection_messages).
  { intros r. unfold validaciones, rejection_messages.
    repeat match goal with
      | |- context [if ?c then _ else _] => destruct c
      end; intros H; try discriminate H;
      injection H as <-; eexists; (split; [reflexivity|]); simpl; tauto. }
  split; [|split].
  - split.
    + destruct b as [p v d n]. unfold accepted.
      destruct p as [| | | |p|]; try discriminate.
      destruct v as [| | | |v|]; try discriminate.
      destruct d as [| | | |d|]; try discriminate.
      destruct n as [| | | |n|]; try discriminate.
      change (Body (VNumber p) (VNumber v) (VNumber d) (VNumber n))
        with (numeric p v d n).
      rewrite validaciones_numeric. intros H.
      exists p, v, d, n. split; [reflexivity|].
      unfold price_range, volatility_range, days_range, paths_range.
      revert H. unfold gt, lt, le.
      destruct p as [|p], v as [|v], d as [|d], n as [|n]; simpl;
        repeat match goal with
          | |- context [Rle_dec ?x ?y] => destruct (Rle_dec x y)
          | |- context [Rlt_dec ?x ?y] => destruct (Rlt_dec x y)
          end; simpl; intros H; try discriminate H;
        repeat split; auto; lra.
    + intros (p & v & d & n & -> & Hp & Hv & Hd & Hn).
      unfold accepted. rewrite validaciones_numeric.
      unfold price_range, volatility_range, days_range, paths_range in *.
      destruct p, v, d, n; simpl in *; decide_cmp.
  - unfold rejected, accepted. split.
    + intros [msg H] Ha. rewrite Ha in H. discriminate H.
    + intros Hn. destruct (validaciones b) as [r|] eqn:E; [|contradiction].
      destruct (Hmsg r eq_refl) as (msg & -> & _). eauto.
  - intros msg H. destruct (Hmsg _ H) as (msg' & E & Hin).
    unfold bad_request in E. injection E as ->. exact Hin.
Qed.

(** ** The three kinds of response *)

(** X2.  [POST] never lets an exception out.  A body that the validation
    rejects is answered with that rejection before any call of
    [Math.random]; a body that it accepts is answered, when the simulation
    ends, with a result of status 200 or with the internal error of status
    500, never with a rejection. *)
Theorem POST_outcomes random fuel (b : body) (s : nat) :
  (forall e s', POST random fuel b s <> Throw e s') /\
  (forall msg,
      validaciones b = Some (bad_request msg) ->
      POST random fuel b s = Done (bad_request msg) s) /\
  (forall r s',
      accepted b ->
      POST random fuel b s = Done r s' ->
      r = internal_error \/
      exists res, r = NextResponse_json (ResultBody res) 200).
Proof.
  split; [|split].
  - intros e s'. unfold POST, try_catch.
    destruct (validaciones b) as [r|].
    + unfold ret. discriminate.
    + destruct (simular _ _ _ _ _ _ s); unfold ret; discriminate.
  - intros msg H. unfold POST, try_catch. rewrite H. reflexivity.
  - intros r s' Ha. rewrite (POST_accepted _ _ _ Ha). unfold try_catch.
    destruct (simular _ _ _ _ _ _ s) as [r0 s0|e s0|] eqn:E; try discriminate.
    + intros H. injection H as -> _. right.
      apply (simular_status _ _ _ _ _ _ _ _ _ E).
    + unfold ret. intros H. injection H as <- _. left. reflexivity.
Qed.

Lemma POST_outcomes_witness :
  POST constant_half 1
    (Body (VNumber (Num 100)) VUndefined (VNumber (Num 30))
          (VNumber (Num 1000))) 0%nat =
    Done (bad_request "Parámetros inválidos") 0%nat.
Proof.
  apply (proj1 (proj2 (POST_outcomes constant_half 1 _ 0%nat))).
  reflexivity.
Defined.

(** ** [gaussianRandom] *)

Lemma while_zero_spec random (n : nat) :
  forall s,
    match while_zero random n (Num 0) s with
    | Done u s' =>
        exists a, (a < n)%nat /\ first_nonzero random s a /\
                  u = Num (random (s + a)%nat) /\ s' = (s + a + 1)%nat
    | Throw _ _ => False
    | Diverge => forall j, (j < n)%nat -> random (s + j)%nat = 0
    end.
Proof.
  induction n as [|n IH]; intros s; cbn [while_zero].
  - unfold strict_eq. destruct (Req_dec_T 0 0) as [_ | N]; [|lra].
    intros j Hj. lia.
  - unfold strict_eq at 1. destruct (Req_dec_T 0 0) as [_ | N]; [|lra].
    unfold bind, Math_random.
    destruct (Req_dec_T (random s) 0) as [Hz | Hz].
    + rewrite Hz. specialize (IH (S s)).
      destruct (while_zero random n (Num 0) (S s)) as [u s'|e s'|].
      * destruct IH as (a & Ha & [Hzero Hnz] & Hu & Hs').
        exists (S a). split; [lia|]. split; [split|].
        -- intros [|j] Hj; [rewrite Nat.add_0_r; exact Hz|].
           replace (s + S j)%nat with (S s + j)%nat by lia.
           apply Hzero. lia.
        -- replace (s + S a)%nat with (S s + a)%nat by lia. exact Hnz.
        -- replace (s + S a)%nat with (S s + a)%nat by lia.
           split; [exact Hu | lia].
      * exact IH.
      * intros [|j] Hj; [rewrite Nat.add_0_r; exact Hz|].
        replace (s + S j)%nat with (S s + j)%nat by lia.
        apply IH. lia.
    + assert (Hexit : while_zero random n (Num (random s)) (S s) =
                        Done (Num (random s)) (S s)).
      { destruct n; simpl; unfold strict_eq;
          destruct (Req_dec_T (random s) 0); try contradiction; reflexivity. }
      rewrite Hexit. exists 0%nat. rewrite !Nat.add_0_r.
      split; [lia|]. split; [split|].
      * intros j Hj. lia.
      * rewrite Nat.add_0_r. exact Hz.
      * split; [reflexivity | lia].
Qed.

(** X3.  With [Math.random] in [0, 1), a call of [gaussianRandom] never
    throws.  When it returns, it has skipped the zeros in front of a first
    non-zero sample [u] and then the zeros in front of a second one [v],
    each run shorter than the budget; it has made exactly those calls of
    [Math.random], two at least, and its value is the finite number
    [sqrt(-2 ln u) cos(2 pi v)].  It runs out of budget only on a run of
    [fuel] zeros. *)
Theorem gaussianRandom_spec random fuel (s : nat) :
  (forall k, 0 <= random k < 1) ->
  match gaussianRandom random fuel s with
  | Done z s' =>
      exists a b,
        (a < fuel)%nat /\ (b < fuel)%nat /\
        first_nonzero random s a /\
        first_nonzero random (s + a + 1) b /\
        s' = (s + a + b + 2)%nat /\
        z = Num (box_muller (random (s + a)%nat) (random (s + a + 1 + b)%nat))
  | Throw _ _ => False
  | Diverge =>
      exists k, (s <= k)%nat /\
                forall j, (j < fuel)%nat -> random (k + j)%nat = 0
  end.
Proof.
  intros Hrange. unfold gaussianRandom, bind.
  pose proof (while_zero_spec random fuel s) as Hu.
  destruct (while_zero random fuel (Num 0) s) as [u s1|e s1|].
  - destruct Hu as (a & Ha & Hfa & -> & ->).
    pose proof (while_zero_spec random fuel (s + a + 1)%nat) as Hv.
    destruct (while_zero random fuel (Num 0) (s + a + 1)%nat) as [v s2|e s2|].
    + destruct Hv as (b & Hb & Hfb & -> & ->).
      unfold ret. exists a, b. repeat split; try tauto; try lia.
      * apply Hfa.
      * apply Hfa.
      * apply Hfb.
      * apply Hfb.
      * pose proof (Hrange (s + a)%nat) as Hr. destruct Hfa as [_ Hnz].
        set (u := random (s + a)%nat) in *.
        unfold Math_log. destruct (Rlt_dec 0 u) as [_ | N]; [|lra].
        assert (Hln : ln u < 0).
        { rewrite <- ln_1. apply ln_increasing; lra. }
        simpl. destruct (Rlt_dec (-2.0 * ln u) 0) as [N | _]; [lra|].
        simpl. unfold box_muller. do 2 f_equal; f_equal; lra.
    + exact Hv.
    + exists (s + a + 1)%nat. split; [lia | exact Hv].
  - exact Hu.
  - exists s. split; [lia | exact Hu].
Qed.

Lemma gaussianRandom_spec_witness :
  match gaussianRandom constant_half 1 0%nat with
  | Done z s' =>
      exists a b,
        (a < 1)%nat /\ (b < 1)%nat /\
        first_nonzero constant_half 0 a /\
        first_nonzero constant_half (0 + a + 1) b /\
        s' = (0 + a + b + 2)%nat /\
        z = Num (box_muller (constant_half (0 + a)%nat)
                            (constant_half (0 + a + 1 + b)%nat))
  | Throw _ _ => False
  | Diverge =>
      exists k, (0 <= k)%nat /\
                forall j, (j < 1)%nat -> constant_half (k + j)%nat = 0
  end.
Proof.
  apply gaussianRandom_spec. intros k. unfold constant_half. lra.
Defined.

(** ** [mean] *)

Lemma fold_left_add_NaN (l : list number) :
  fold_left (fun sum v => add sum v) l NaN = NaN.
Proof. induction l as [|x l IH]; simpl; auto. Qed.

Lemma fold_left_add_In_NaN (l : list number) :
  In NaN l -> forall acc, fold_left (fun sum v => add sum v) l acc = NaN.
Proof.
  induction l as [|x l IH]; intros Hin acc; [contradiction|].
  simpl. destruct Hin as [-> | Hin].
  - replace (add acc NaN) with NaN by (destruct acc; reflexivity).
    apply fold_left_add_NaN.
  - apply IH. exact Hin.
Qed.

(** X4.  [mean] returns [NaN] on the empty array, where it divides 0 by
    0, and on every array that holds a [NaN]. *)
Theorem mean_NaN (values : list number) :
  values = [] \/ In NaN values -> mean values = NaN.
Proof.
  intros [-> | Hin].
  - unfold mean. simpl. unfold div. destruct (Req_dec_T 0 0); [reflexivity | lra].
  - unfold mean. rewrite (fold_left_add_In_NaN _ Hin). reflexivity.
Qed.

Lemma mean_NaN_witness : mean [Num 1; NaN; Num 3] = NaN.
Proof. apply mean_NaN. right. simpl. auto. Defined.

(** ** [percentile] for a percentage from 0 to 100 *)

Lemma rank_in_range (p : R) (n : nat) :
  (1 <= n)%nat -> 0 <= p <= 100 -> 0 <= rank p n <= INR n - 1.
Proof.
  intros Hn Hp. unfold rank.
  assert (1 <= INR n) by (change 1 with (INR 1); apply le_INR; exact Hn).
  split; [apply Rmult_le_pos; lra|].
  rewrite <- (Rmult_1_l (INR n - 1)) at 2.
  apply Rmult_le_compat_r; lra.
Qed.

Lemma floor_ceil_in_range (pos : R) (n : nat) :
  0 <= pos <= INR n - 1 ->
  (0 <= Zfloor pos <= Zceil pos)%Z /\
  (Zceil pos <= Z.of_nat n - 1)%Z /\
  (Zceil pos <= Zfloor pos + 1)%Z.
Proof.
  intros Hpos.
  pose proof (Zfloor_bound pos) as Hf. pose proof (Zceil_bound pos) as Hc.
  assert (H0 : (0 <= Zfloor pos)%Z) by (apply Zfloor_lub; simpl; lra).
  assert (H1 : (Zfloor pos <= Zceil pos)%Z) by (apply le_IZR; lra).
  assert (H2 : (Zceil pos <= Z.of_nat n - 1)%Z).
  { unfold Zceil.
    assert (H : (- (Z.of_nat n - 1) <= Zfloor (- pos))%Z).
    { apply Zfloor_lub. rewrite opp_IZR, minus_IZR, <- INR_IZR_INZ. lra. }
    lia. }
  assert (H3 : (Zceil pos < Zfloor pos + 2)%Z).
  { apply lt_IZR. rewrite plus_IZR. lra. }
  lia.
Qed.

Lemma index_reals_in_range (sorted : list R) (k : Z) :
  (0 <= k < Z.of_nat (length sorted))%Z ->
  index (map Num sorted) (Num (IZR k)) = Some (Num (nth (Z.to_nat k) sorted 0)).
Proof.
  intros Hk. rewrite index_IZR by lia.
  rewrite nth_error_map, (nth_error_nth' sorted 0) by lia. reflexivity.
Qed.

Lemma spec_percentile_value (sorted : list R) (p : R) :
  sorted <> [] -> 0 <= p <= 100 ->
  spec_percentile sorted p =
    Some (Num (interpolate sorted (rank p (length sorted)))).
Proof.
  intros Hne Hp. unfold spec_percentile. cbv zeta.
  fold (rank p (length sorted)). set (pos := rank p (length sorted)).
  assert (Hlen : (1 <= length sorted)%nat)
    by (destruct sorted; [congruence | simpl; lia]).
  destruct (floor_ceil_in_range pos (length sorted)
              (rank_in_range p _ Hlen Hp)) as (Hf & Hc & _).
  rewrite !index_reals_in_range by lia. unfold interpolate. fold pos.
  destruct (Z.eq_dec (Zfloor pos) (Zceil pos)) as [E | E]; simpl.
  - do 2 f_equal. rewrite <- E.
    assert (Hint : pos = IZR (Zfloor pos)).
    { pose proof (Zfloor_bound pos). pose proof (Zceil_bound pos).
      rewrite <- E in *. lra. }
    rewrite <- Hint. lra.
  - reflexivity.
Qed.

Lemma percentile_value (l : list R) (p : R) :
  l <> [] -> 0 <= p <= 100 ->
  exists sorted,
    Permutation l sorted /\ StronglySorted Rle sorted /\
    percentile (map Num l) (Num p) =
      Some (Num (interpolate sorted (rank p (length l)))).
Proof.
  intros Hne Hp.
  destruct (Array_sort_reals l) as (sorted & Hsort & Hperm & Hs).
  exists sorted. split; [exact Hperm|]. split; [exact Hs|].
  unfold percentile. rewrite (percentile_traced_reals _ _ _ Hne Hsort).
  cbn [snd]. rewrite (Permutation_length Hperm).
  apply spec_percentile_value; [|exact Hp].
  intros ->. apply Permutation_sym, Permutation_nil in Hperm. contradiction.
Qed.

Lemma interpolate_between (s : list R) (pos a b : R) :
  0 <= pos <= INR (length s) - 1 ->
  Forall (fun x => a <= x <= b) s ->
  a <= interpolate s pos <= b.
Proof.
  intros Hpos Hall.
  destruct (floor_ceil_in_range pos _ Hpos) as (Hf & Hc & _).
  pose proof (Zfloor_bound pos) as Hw.
  rewrite Forall_forall in Hall.
  assert (H1 : a <= nth (Z.to_nat (Zfloor pos)) s 0 <= b)
    by (apply Hall, nth_In; lia).
  assert (H2 : a <= nth (Z.to_nat (Zceil pos)) s 0 <= b)
    by (apply Hall, nth_In; lia).
  unfold interpolate. set (w := pos - IZR (Zfloor pos)).
  assert (Hw' : 0 <= w < 1) by (unfold w; lra).
  split; nra.
Qed.

Lemma percentile_in_bounds (values : list R) (p a b : R) :
  values <> [] -> 0 <= p <= 100 ->
  Forall (fun x => a <= x <= b) values ->
  exists r, percentile (map Num values) (Num p) = Some (Num r) /\ a <= r <= b.
Proof.
  intros Hne Hp Hall.
  destruct (percentile_value values p Hne Hp) as (sorted & Hperm & _ & Hval).
  eexists. split; [exact Hval|].
  assert (Hlen : (1 <= length values)%nat)
    by (destruct values; [congruence | simpl; lia]).
  apply interpolate_between.
  - rewrite <- (Permutation_length Hperm). apply rank_in_range; assumption.
  - rewrite Forall_forall in *. intros x Hx. apply Hall.
    apply (Permutation_in _ (Permutation_sym Hperm)). exact Hx.
Qed.

(** X6.  For a percentage [p] from 0 to 100 [percentile] never reads
    outside the sorted array: on a non-empty array of reals the lower and
    the upper rank are both indices of it, each read gives an element of
    the array, and the result is never [undefined]. *)
Theorem percentile_never_undefined (values : list R) (p : R) :
  values <> [] -> 0 <= p <= 100 ->
  let sorted := Array_sort (fun a b => sub a b) (map Num values) in
  let pos :=
    mul (div (Num p) (Num 100)) (sub (Num (INR (length sorted))) (Num 1)) in
  (exists x, index sorted (Math_floor pos) = Some (Num x) /\ In x values) /\
  (exists y, index sorted (Math_ceil pos) = Some (Num y) /\ In y values) /\
  exists r, percentile (map Num values) (Num p) = Some r.
Proof.
  intros Hne Hp. cbv zeta.
  destruct (percentile_value values p Hne Hp) as (s & Hperm & _ & Hval).
  destruct (Array_sort_reals values) as (sorted & Hsort & Hperm' & _).
  rewrite Hsort, length_map.
  unfold div. destruct (Req_dec_T 100 0); [lra|].
  cbn [mul sub lift2 Math_floor Math_ceil lift1].
  assert (Hlen : (1 <= length sorted)%nat).
  { rewrite <- (Permutation_length Hperm').
    destruct values; [congruence | simpl; lia]. }
  assert (Hpos : 0 <= p / 100 * (INR (length sorted) - 1)
                   <= INR (length sorted) - 1)
    by (apply (rank_in_range p (length sorted) Hlen Hp)).
  destruct (floor_ceil_in_range _ _ Hpos) as (Hf & Hc & _).
  rewrite !index_reals_in_range by lia.
  split; [|split].
  - eexists. split; [reflexivity|].
    apply (Permutation_in _ (Permutation_sym Hperm')), nth_In. lia.
  - eexists. split; [reflexivity|].
    apply (Permutation_in _ (Permutation_sym Hperm')), nth_In. lia.
  - eexists. exact Hval.
Qed.

Lemma percentile_never_undefined_witness :
  exists r, percentile (map Num [7; 7]) (Num 5) = Some r.
Proof.
  apply (percentile_never_undefined [7; 7] 5).
  - discriminate.
  - lra.
Defined.

Lemma sorted_nth_le (s : list R) :
  StronglySorted Rle s ->
  forall i j, (i <= j < length s)%nat -> nth i s 0 <= nth j s 0.
Proof.
  induction 1 as [|x s Hs IH Hall]; intros i j Hij; [simpl in Hij; lia|].
  destruct i as [|i], j as [|j]; simpl in *; try lia.
  - lra.
  - rewrite Forall_forall in Hall. apply Hall, nth_In. lia.
  - apply IH. lia.
Qed.

Lemma interpolate_integer (s : list R) (k : Z) :
  interpolate s (IZR k) = nth (Z.to_nat k) s 0.
Proof.
  unfold interpolate. unfold Zceil. rewrite <- opp_IZR, !ZfloorZ.
  replace (- - k)%Z with k by lia. lra.
Qed.

(** X7.  On a non-empty array of reals [percentile(values, 0)] is the
    smallest element and [percentile(values, 100)] the largest. *)
Theorem percentile_extremes (values : list R) :
  values <> [] ->
  exists lo hi,
    percentile (map Num values) (Num 0) = Some (Num lo) /\
    percentile (map Num values) (Num 100) = Some (Num hi) /\
    In lo values /\ In hi values /\
    Forall (fun x => lo <= x <= hi) values.
Proof.
  intros Hne.
  assert (Hlen : (1 <= length values)%nat)
    by (destruct values; [congruence | simpl; lia]).
  destruct (percentile_value values 0 Hne ltac:(lra)) as (s & Hperm & Hs & H0).
  destruct (percentile_value values 100 Hne ltac:(lra)) as (s' & Hperm' & Hs' & H100).
  assert (s' = s).
  { apply sorted_permutation_unique; auto.
    apply perm_trans with values; [apply Permutation_sym|]; assumption. }
  subst s'. pose proof (Permutation_length Hperm) as Hl.
  assert (Hr0 : rank 0 (length values) = IZR 0) by (unfold rank; simpl; lra).
  assert (Hr100 : rank 100 (length values) = IZR (Z.of_nat (length values) - 1)).
  { unfold rank. rewrite minus_IZR, <- INR_IZR_INZ. simpl. lra. }
  rewrite Hr0, interpolate_integer in H0.
  rewrite Hr100, interpolate_integer in H100.
  exists (nth (Z.to_nat 0) s 0), (nth (Z.to_nat (Z.of_nat (length values) - 1)) s 0).
  split; [exact H0|]. split; [exact H100|].
  split; [|split].
  - apply (Permutation_in _ (Permutation_sym Hperm)), nth_In. simpl. lia.
  - apply (Permutation_in _ (Permutation_sym Hperm)), nth_In. lia.
  - apply Forall_forall. intros x Hx.
    apply (Permutation_in _ Hperm) in Hx.
    destruct (In_nth _ _ 0 Hx) as (i & Hi & <-).
    split; apply sorted_nth_le; auto; simpl; lia.
Qed.

Lemma percentile_extremes_witness :
  exists lo hi,
    percentile (map Num [3; 1; 2]) (Num 0) = Some (Num lo) /\
    percentile (map Num [3; 1; 2]) (Num 100) = Some (Num hi) /\
    In lo [3; 1; 2] /\ In hi [3; 1; 2] /\
    Forall (fun x => lo <= x <= hi) [3; 1; 2].
Proof.
  apply percentile_extremes. discriminate.
Defined.

(** ** [percentile] above 100, at [NaN], and on one element *)

Lemma index_past_end (a : list number) (k : Z) :
  (Z.of_nat (length a) <= k)%Z -> index a (Num (IZR k)) = None.
Proof.
  intros Hk. rewrite index_IZR by lia. apply nth_error_None. lia.
Qed.

Lemma add_NaN_r (x : number) : add x NaN = NaN.
Proof. destruct x; reflexivity. Qed.

(** X9.  Above 100 [percentile] has no value to give: on an array of two
    reals or more a [p] above 100 puts the upper rank past the end, and the
    result is [undefined] or [NaN], never a number of the array; a [p] that
    is [NaN] yields [NaN] on every non-empty array.  An array of one real
    yields its element for every real [p]. *)
Theorem percentile_outside_percentages :
  (forall (values : list R) (p : R),
      (2 <= length values)%nat -> 100 < p ->
      percentile (map Num values) (Num p) = None \/
      percentile (map Num values) (Num p) = Some NaN) /\
  (forall (values : list number),
      values <> [] -> percentile values NaN = Some NaN) /\
  (forall x p : R, percentile [Num x] (Num p) = Some (Num x)).
Proof.
  split; [|split].
  - intros values p Hlen Hbig.
    assert (Hne : values <> []) by (destruct values; [simpl in Hlen; lia | congruence]).
    destruct (Array_sort_reals values) as (sorted & Hsort & Hperm & _).
    unfold percentile. rewrite (percentile_traced_reals _ _ _ Hne Hsort).
    cbn [snd]. unfold spec_percentile. cbv zeta.
    rewrite <- (Permutation_length Hperm).
    assert (Hn : 2 <= INR (length values))
      by (change 2 with (INR 2); apply le_INR; exact Hlen).
    set (pos := p / 100 * (INR (length values) - 1)).
    pose proof (Zfloor_bound pos) as Hf. pose proof (Zceil_bound pos) as Hc.
    assert (Hpos : INR (length values) - 1 < pos) by (unfold pos; nra).
    assert (Hup : (Z.of_nat (length values) <= Zceil pos)%Z).
    { assert (H : (Z.of_nat (length values) - 1 < Zceil pos)%Z).
      { apply lt_IZR. rewrite minus_IZR, <- INR_IZR_INZ. lra. }
      lia. }
    rewrite (index_past_end _ (Zceil pos))
      by (rewrite length_map, <- (Permutation_length Hperm); exact Hup).
    destruct (Z.eq_dec _ _) as [E | E].
    + left. rewrite E. apply index_past_end.
      rewrite length_map, <- (Permutation_length Hperm). exact Hup.
    + right. simpl. rewrite add_NaN_r. reflexivity.
  - intros values Hne. unfold percentile, percentile_traced.
    pose proof (INR_length_pos values Hne) as Hlen.
    unfold strict_eq at 1.
    destruct (Req_dec_T (INR (length values)) 0); [lra|]. reflexivity.
  - intros x p. change [Num x] with (map Num [x]).
    destruct (Array_sort_reals [x]) as (sorted & Hsort & Hperm & _).
    apply Permutation_length_1_inv in Hperm. subst sorted.
    unfold percentile.
    rewrite (percentile_traced_reals [x] [x] p ltac:(discriminate) Hsort).
    cbn [snd]. unfold spec_percentile. cbv zeta.
    replace (p / 100 * (INR (length [x]) - 1)) with (IZR 0) by (simpl; lra).
    unfold Zceil. rewrite <- opp_IZR, !ZfloorZ. simpl Z.opp.
    destruct (Z.eq_dec 0 0) as [_ | N]; [|contradiction].
    rewrite (index_IZR _ 0) by lia. reflexivity.
Qed.

Lemma percentile_outside_percentages_witness :
  percentile (map Num [1; 2]) (Num 150) = None \/
  percentile (map Num [1; 2]) (Num 150) = Some NaN.
Proof.
  apply (proj1 percentile_outside_percentages); [simpl; lia | lra].
Defined.

(** ** The response on valid parameters, field by field *)

Lemma simular_resumen random fuel (p v d n : number) (s : nat) res st s' :
  simular random fuel p v d n s = Done (NextResponse_json (ResultBody res) st) s' ->
  res = resumen p d (res_simulaciones res).
Proof.
  unfold simular, bind.
  destruct (Array_from _ _ s) as [a0 s0| |]; try discriminate.
  destruct (for_each _ _ _ s0) as [a1 s1| |]; try discriminate.
  unfold ret. intros H. injection H as <- _ _. reflexivity.
Qed.

Lemma POST_valid_resumen random fuel (p v : R) (d n : Z) (s0 : nat) :
  well_behaved_source random fuel -> valid_parameters p v d n ->
  POST random fuel (request p v d n) s0 =
    Done (NextResponse_json
            (ResultBody
               (resumen (Num p) (Num (IZR d))
                  (matriz_en random fuel (Num p) (Num v) (Z.to_nat n)
                             (Z.to_nat d) s0 (Z.to_nat d) 0)))
            200)
         (state_after random fuel (Z.to_nat d * Z.to_nat n) s0).
Proof.
  intros Hsrc Hvalid.
  destruct (POST_valid random fuel p v d n s0 Hsrc Hvalid)
    as (res & Hpost & Hsim & _).
  rewrite Hpost. do 3 f_equal.
  pose proof (valid_parameters_accepted _ _ _ _ Hvalid) as Ha.
  rewrite (POST_accepted _ _ _ Ha) in Hpost. unfold try_catch in Hpost.
  destruct (simular _ _ _ _ _ _ s0) as [r0 s1|e s1|] eqn:E; try discriminate.
  injection Hpost as -> _.
  rewrite (simular_resumen _ _ _ _ _ _ _ _ _ _ E) at 1.
  rewrite Hsim. reflexivity.
Qed.

Lemma columna_matriz random fuel valorBase volatilidad (n d s0 t : nat) :
  (t <= d)%nat ->
  columna (matriz_en random fuel valorBase volatilidad n d s0 d 0) t =
    map (fun i => precio_en random fuel valorBase volatilidad n s0 i t)
        (seq 0 n).
Proof.
  intros Ht. unfold columna. rewrite matriz_en_rows, map_map.
  apply map_ext. intros i.
  rewrite fila_tras_full, nth_error_map_seq by lia. reflexivity.
Qed.

Lemma columna_reals random fuel (p v : R) (n d s0 t : nat) :
  well_behaved_source random fuel -> 0 < p -> (1 <= n)%nat -> (t <= d)%nat ->
  exists l,
    columna (matriz_en random fuel (Num p) (Num v) n d s0 d 0) t = map Num l /\
    l <> [].
Proof.
  intros Hsrc Hp Hn Ht. rewrite columna_matriz by exact Ht.
  exists (map (fun i => real_of (precio_en random fuel (Num p) (Num v) n s0 i t))
              (seq 0 n)).
  split.
  - rewrite map_map. apply map_ext. intros i.
    destruct (precio_en_positive random fuel p v n s0 i t Hsrc Hp) as (r & -> & _).
    reflexivity.
  - intros E. apply (f_equal (@length R)) in E.
    rewrite length_map, length_seq in E. simpl in E. lia.
Qed.

Lemma range_le_0_IZR (d : Z) :
  (0 <= d)%Z -> range_le 0 (Num (IZR d)) = seq 0 (Z.to_nat d + 1).
Proof. intros Hd. unfold range_le. rewrite ZfloorZ. f_equal. lia. Qed.

(** X10.  For valid parameters the three sequences of statistics have
    [horizonDays + 1] entries each, and entry [t] of each is the mean, the
    5th and the 95th percentile of column [t] of the returned matrix. *)
Theorem statistics_per_step random fuel (p v : R) (d n : Z) (s0 : nat) :
  well_behaved_source random fuel -> valid_parameters p v d n ->
  exists res s',
    POST random fuel (request p v d n) s0 =
      Done (NextResponse_json (ResultBody res) 200) s' /\
    length (res_promedio res) = Z.to_nat (d + 1) /\
    length (res_percentil_5 res) = Z.to_nat (d + 1) /\
    length (res_percentil_95 res) = Z.to_nat (d + 1) /\
    forall t,
      (t <= Z.to_nat d)%nat ->
      nth_error (res_promedio res) t =
        Some (mean (columna (res_simulaciones res) t)) /\
      nth_error (res_percentil_5 res) t =
        Some (percentile (columna (res_simulaciones res) t) (Num 5)) /\
      nth_error (res_percentil_95 res) t =
        Some (percentile (columna (res_simulaciones res) t) (Num 95)).
Proof.
  intros Hsrc Hvalid.
  rewrite (POST_valid_resumen random fuel p v d n s0 Hsrc Hvalid).
  destruct Hvalid as (Hp & Hv & Hd & Hn).
  eexists. eexists. split; [reflexivity|].
  unfold resumen.
  cbn [res_promedio res_percentil_5 res_percentil_95 res_simulaciones].
  rewrite range_le_0_IZR by lia.
  rewrite !length_map, !length_seq.
  split; [lia|]. split; [lia|]. split; [lia|].
  intros t Ht. rewrite !nth_error_map_seq by lia. auto.
Qed.

Lemma statistics_per_step_witness :
  exists res s',
    POST constant_half 1 (request 100 20 1 100) 0%nat =
      Done (NextResponse_json (ResultBody res) 200) s' /\
    length (res_promedio res) = Z.to_nat (1 + 1) /\
    length (res_percentil_5 res) = Z.to_nat (1 + 1) /\
    length (res_percentil_95 res) = Z.to_nat (1 + 1).
Proof.
  destruct (statistics_per_step constant_half 1 100 20 1 100 0%nat
              constant_half_well_behaved valid_parameters_example)
    as (res & s' & H & H1 & H2 & H3 & _).
  exists res, s'. auto.
Defined.

Lemma preciosFinales_columna (d : Z) (arr : list (list number)) :
  (0 <= d)%Z -> preciosFinales (Num (IZR d)) arr = columna arr (Z.to_nat d).
Proof.
  intros Hd. unfold preciosFinales, columna. apply map_ext. intros fila.
  rewrite index_IZR by exact Hd. reflexivity.
Qed.

(** X12.  The mean of the final prices that the response reports is the
    last entry of its mean sequence: both are the mean of the column
    [horizonDays] of the matrix. *)
Theorem final_mean_is_last_mean random fuel (p v : R) (d n : Z) (s0 : nat) :
  well_behaved_source random fuel -> valid_parameters p v d n ->
  exists res s',
    POST random fuel (request p v d n) s0 =
      Done (NextResponse_json (ResultBody res) 200) s' /\
    nth_error (res_promedio res) (Z.to_nat d) =
      Some (res_precio_final_promedio res) /\
    res_precio_final_promedio res =
      mean (columna (res_simulaciones res) (Z.to_nat d)).
Proof.
  intros Hsrc Hvalid.
  rewrite (POST_valid_resumen random fuel p v d n s0 Hsrc Hvalid).
  destruct Hvalid as (Hp & Hv & Hd & Hn).
  eexists. eexists. split; [reflexivity|].
  unfold resumen.
  cbn [res_promedio res_precio_final_promedio res_simulaciones].
  rewrite range_le_0_IZR by lia.
  rewrite nth_error_map_seq by lia.
  set (M := matriz_en _ _ _ _ _ _ _ _ _).
  fold (preciosFinales (Num (IZR d)) M). fold (columna M (Z.to_nat d)).
  rewrite preciosFinales_columna by lia. auto.
Qed.

Lemma final_mean_is_last_mean_witness :
  exists res s',
    POST constant_half 1 (request 100 20 1 100) 0%nat =
      Done (NextResponse_json (ResultBody res) 200) s' /\
    nth_error (res_promedio res) (Z.to_nat 1) =
      Some (res_precio_final_promedio res) /\
    res_precio_final_promedio res =
      mean (columna (res_simulaciones res) (Z.to_nat 1)).
Proof.
  apply final_mean_is_last_mean.
  - exact constant_half_well_behaved.
  - exact valid_parameters_example.
Defined.

(** ** Zero volatility *)

Lemma factor_paso_zero_volatility (z : R) :
  factor_paso (Num 0) (Num z) = Num 1.
Proof.
  rewrite factor_paso_reals. f_equal.
  unfold spec_step_factor, spec_daily_vol. rewrite <- exp_0. f_equal.
  unfold Rdiv. ring.
Qed.

Lemma precio_en_zero_volatility random fuel (p : R) (n s0 i t : nat) :
  well_behaved_source random fuel ->
  precio_en random fuel (Num p) (Num 0) n s0 i t = Num p.
Proof.
  intros [Hrange Hnz]. induction t as [|t IH]; [reflexivity|].
  cbn [precio_en]. rewrite IH.
  destruct (draw_finite random fuel Hrange Hnz (t * n + i) s0) as [z ->].
  rewrite factor_paso_zero_volatility. simpl. f_equal. ring.
Qed.

(** X15.  With a volatility of 0 nothing moves, whatever the draws are:
    the factor of every step is [exp(0) = 1], every entry of the matrix is
    [currentPrice], every relative return is 0, and the VaR amount and
    percentage are 0. *)
Theorem zero_volatility_flat random fuel (p : R) (d n : Z) (s0 : nat) :
  well_behaved_source random fuel -> valid_parameters p 0 d n ->
  exists res s',
    POST random fuel (request p 0 d n) s0 =
      Done (NextResponse_json (ResultBody res) 200) s' /\
    Forall (Forall (eq (Num p))) (res_simulaciones res) /\
    Forall (eq (Num 0)) (terminal_returns p d (res_simulaciones res)) /\
    res_var_95 res = Num 0 /\
    res_var_percentaje res = Num 0.
Proof.
  intros Hsrc Hvalid.
  rewrite (POST_valid_resumen random fuel p 0 d n s0 Hsrc Hvalid).
  destruct Hvalid as (Hp & Hv & Hd & Hn).
  eexists. eexists. split; [reflexivity|].
  set (M := matriz_en _ _ _ _ _ _ _ _ _).
  assert (Hfinal : preciosFinales (Num (IZR d)) M =
                   map Num (repeat p (Z.to_nat n))).
  { rewrite preciosFinales_columna by lia.
    unfold M. rewrite columna_matriz by lia.
    rewrite (repeat_map_seq p (Z.to_nat n) 0%nat), map_map.
    apply map_ext. intros i. apply precio_en_zero_volatility. exact Hsrc. }
  assert (Hret : terminal_returns p d M = map Num (repeat 0 (Z.to_nat n))).
  { change (terminal_returns p d M)
      with (map (fun row => div (sub (to_number (index row (Num (IZR d))))
                                     (Num p)) (Num p)) M).
    rewrite <- (map_map (fun row => to_number (index row (Num (IZR d))))
                        (fun x => div (sub x (Num p)) (Num p))).
    fold (preciosFinales (Num (IZR d)) M). rewrite Hfinal.
    rewrite !map_map, !map_repeat. f_equal. simpl.
    destruct (Req_dec_T p 0); [lra|]. f_equal. field. lra. }
  unfold resumen. cbn [res_simulaciones res_var_95 res_var_percentaje].
  fold (preciosFinales (Num (IZR d)) M).
  split; [|split].
  - unfold M. rewrite matriz_en_rows. apply Forall_forall. intros row Hrow.
    apply in_map_iff in Hrow. destruct Hrow as (i & <- & _).
    rewrite fila_tras_full. apply Forall_forall. intros x Hx.
    apply in_map_iff in Hx. destruct Hx as (t & <- & _).
    symmetry. apply precio_en_zero_volatility. exact Hsrc.
  - rewrite Hret. apply Forall_forall. intros x Hx.
    apply in_map_iff in Hx. destruct Hx as (y & <- & Hy).
    apply repeat_spec in Hy. subst y. reflexivity.
  - assert (Hcambios :
              map (fun x => div (sub x (Num p)) (Num p))
                  (preciosFinales (Num (IZR d)) M) =
                map Num (repeat 0 (Z.to_nat n))).
    { rewrite <- Hret. unfold terminal_returns, preciosFinales.
      rewrite map_map. reflexivity. }
    rewrite Hcambios.
    assert (Hne0 : repeat 0 (Z.to_nat n) <> [])
      by (destruct (Z.to_nat n) eqn:E; [lia | discriminate]).
    assert (Hall0 : Forall (fun x => 0 <= x <= 0) (repeat 0 (Z.to_nat n))).
    { apply Forall_forall. intros x Hx. apply repeat_spec in Hx. lra. }
    destruct (percentile_in_bounds _ 5 0 0 Hne0 ltac:(lra) Hall0)
      as (r & -> & Hr).
    assert (r = 0) by lra. subst r. simpl.
    split; f_equal; [rewrite Rabs_R0 |]; ring.
Qed.

Lemma zero_volatility_flat_witness :
  exists res s',
    POST constant_half 1 (request 100 0 1 100) 0%nat =
      Done (NextResponse_json (ResultBody res) 200) s' /\
    Forall (Forall (eq (Num 100))) (res_simulaciones res) /\
    Forall (eq (Num 0)) (terminal_returns 100 1 (res_simulaciones res)) /\
    res_var_95 res = Num 0 /\
    res_var_percentaje res = Num 0.
Proof.
  apply zero_volatility_flat.
  - exact constant_half_well_behaved.
  - unfold valid_parameters. repeat split; try lra; lia.
Defined.

(** ** What the simulation does with a [NaN] that passed the validation *)

Lemma accepted_nan_or (p v d n : number) :
  nan_or price_range p -> nan_or volatility_range v ->
  nan_or days_range d -> nan_or paths_range n ->
  accepted (numeric p v d n).
Proof.
  intros Hp Hv Hd Hn. unfold accepted. rewrite validaciones_numeric.
  unfold price_range, volatility_range, days_range, paths_range in *.
  destruct p, v, d, n; simpl in *; decide_cmp.
Qed.

(** X16.  When [dias] is [NaN] and [simulaciones] is a number in its range,
    the request passes the validation and [Array(NaN)] throws: the response
    is the internal error with status 500, and [Math.random] is never
    called. *)
Theorem nan_days_internal_error random fuel (p v : number) (n : R) (s : nat) :
  nan_or price_range p -> nan_or volatility_range v -> paths_range n ->
  accepted (numeric p v NaN (Num n)) /\
  POST random fuel (numeric p v NaN (Num n)) s = Done internal_error s.
Proof.
  intros Hp Hv Hn.
  assert (Ha : accepted (numeric p v NaN (Num n)))
    by (apply accepted_nan_or; simpl; auto).
  split; [exact Ha|].
  rewrite (POST_accepted _ _ _ Ha). unfold try_catch. simpl as_number.
  unfold paths_range in Hn.
  assert (Hthrow : simular random fuel p v NaN (Num n) s = Throw RangeError s).
  { unfold simular. cbv zeta. unfold bind at 1.
    rewrite (Array_from_throws n _ RangeError); [reflexivity | lra | reflexivity]. }
  rewrite Hthrow. reflexivity.
Qed.

Lemma nan_days_internal_error_witness :
  accepted (numeric (Num 100) (Num 20) NaN (Num 1000)) /\
  POST constant_half 1 (numeric (Num 100) (Num 20) NaN (Num 1000)) 0%nat =
    Done internal_error 0%nat.
Proof.
  apply nan_days_internal_error; unfold price_range, volatility_range,
    paths_range; simpl; lra.
Defined.

Lemma for_each_skip {A B St} (l : list A) (g : A -> B -> St -> M St)
  (st : St) (s : nat) :
  for_each l (fun x st' => for_each [] (g x) st') st s = Done st s.
Proof. induction l as [|x l IH]; simpl; auto. Qed.

Lemma mul_NaN_r (x : number) : mul x NaN = NaN.
Proof. destruct x; reflexivity. Qed.

(** X17.  When [simulaciones] is [NaN] the request passes the validation
    and nothing is simulated, whatever [dias] is within its check: the
    response has status 200, an empty matrix, [NaN] for every mean and
    percentile, for the mean of the final prices and for both VaR fields,
    and [Math.random] is never called. *)
Theorem nan_paths_empty_result random fuel (p v d : number) (s : nat) :
  nan_or price_range p -> nan_or volatility_range v -> nan_or days_range d ->
  exists res,
    POST random fuel (numeric p v d NaN) s =
      Done (NextResponse_json (ResultBody res) 200) s /\
    res_simulaciones res = [] /\
    Forall (eq NaN) (res_promedio res) /\
    Forall (eq (Some NaN)) (res_percentil_5 res) /\
    Forall (eq (Some NaN)) (res_percentil_95 res) /\
    res_precio_final_promedio res = NaN /\
    res_var_95 res = NaN /\
    res_var_percentaje res = NaN.
Proof.
  intros Hp Hv Hd.
  assert (Ha : accepted (numeric p v d NaN))
    by (apply accepted_nan_or; simpl; auto).
  rewrite (POST_accepted _ _ _ Ha). unfold try_catch. simpl as_number.
  assert (Hmean : mean [] = NaN).
  { unfold mean. simpl. unfold div. destruct (Req_dec_T 0 0); [reflexivity | lra]. }
  assert (Hpct : forall q, percentile [] q = Some NaN).
  { intros q. unfold percentile, percentile_traced.
    replace (strict_eq (Num (INR (@length number []))) (Num 0)) with true
      by (symmetry; apply strict_eq_Num; reflexivity).
    reflexivity. }
  assert (Hrun : simular random fuel p v d NaN s =
                 Done (NextResponse_json (ResultBody (resumen p d [])) 200) s).
  { unfold simular. cbv zeta. unfold bind at 1.
    unfold Array_from. cbn [ToLength Z.ltb Z.compare Z.to_nat times ret].
    unfold bind at 1. cbn [range_lt].
    rewrite for_each_skip. reflexivity. }
  rewrite Hrun. eexists. split; [reflexivity|].
  unfold resumen.
  cbn [res_simulaciones res_promedio res_percentil_5 res_percentil_95
       res_precio_final_promedio res_var_95 res_var_percentaje map].
  rewrite Hmean, !Hpct. cbn [to_number Math_abs lift1].
  rewrite mul_NaN_r.
  repeat split; auto;
    apply Forall_forall; intros x Hx; apply in_map_iff in Hx;
    destruct Hx as (t & <- & _); reflexivity.
Qed.

Lemma nan_paths_empty_result_witness :
  exists res,
    POST constant_half 1 (numeric (Num 100) (Num 20) (Num (3 / 2)) NaN) 0%nat =
      Done (NextResponse_json (ResultBody res) 200) 0%nat /\
    res_simulaciones res = [] /\
    Forall (eq NaN) (res_promedio res) /\
    Forall (eq (Some NaN)) (res_percentil_5 res) /\
    Forall (eq (Some NaN)) (res_percentil_95 res) /\
    res_precio_final_promedio res = NaN /\
    res_var_95 res = NaN /\
    res_var_percentaje res = NaN.
Proof.
  apply nan_paths_empty_result;
    unfold price_range, volatility_range, days_range; simpl; lra.
Defined.

(** ** The least and the greatest final price *)

Lemma Math_min_from (l : list R) :
  forall a,
    exists m,
      fold_left min_step (map Num l) (Finite (Num a)) = Finite (Num m) /\
      (m = a \/ In m l) /\ m <= a /\ Forall (fun x => m <= x) l.
Proof.
  induction l as [|x l IH]; intros a.
  - exists a. simpl. repeat split; auto; lra.
  - cbn [map fold_left min_step].
    destruct (Rlt_dec x a) as [Hlt | Hge].
    + destruct (IH x) as (m & Hm & Hin & Hle & Hall).
      exists m. split; [exact Hm|]. split; [|split].
      * right. destruct Hin as [-> | Hin]; [left; reflexivity | right; exact Hin].
      * lra.
      * constructor; assumption.
    + destruct (IH a) as (m & Hm & Hin & Hle & Hall).
      exists m. split; [exact Hm|]. split; [|split].
      * destruct Hin as [-> | Hin]; [left; reflexivity | right; right; exact Hin].
      * exact Hle.
      * constructor; [lra | assumption].
Qed.

Lemma Math_max_from (l : list R) :
  forall a,
    exists m,
      fold_left max_step (map Num l) (Finite (Num a)) = Finite (Num m) /\
      (m = a \/ In m l) /\ a <= m /\ Forall (fun x => x <= m) l.
Proof.
  induction l as [|x l IH]; intros a.
  - exists a. simpl. repeat split; auto; lra.
  - cbn [map fold_left max_step].
    destruct (Rlt_dec a x) as [Hlt | Hge].
    + destruct (IH x) as (m & Hm & Hin & Hle & Hall).
      exists m. split; [exact Hm|]. split; [|split].
      * right. destruct Hin as [-> | Hin]; [left; reflexivity | right; exact Hin].
      * lra.
      * constructor; assumption.
    + destruct (IH a) as (m & Hm & Hin & Hle & Hall).
      exists m. split; [exact Hm|]. split; [|split].
      * destruct Hin as [-> | Hin]; [left; reflexivity | right; right; exact Hin].
      * exact Hle.
      * constructor; [lra | assumption].
Qed.

Lemma Math_min_max_reals (l : list R) :
  l <> [] ->
  exists lo hi,
    Math_min (map Num l) = Finite (Num lo) /\
    Math_max (map Num l) = Finite (Num hi) /\
    In lo l /\ In hi l /\ Forall (fun x => lo <= x <= hi) l.
Proof.
  destruct l as [|x l]; [congruence|]. intros _.
  destruct (Math_min_from l x) as (lo & Hlo & Hinlo & Hlex & Hlall).
  destruct (Math_max_from l x) as (hi & Hhi & Hinhi & Hxhi & Hhall).
  exists lo, hi. unfold Math_min, Math_max.
  cbn [map fold_left min_step max_step].
  split; [exact Hlo|]. split; [exact Hhi|].
  split; [destruct Hinlo as [-> | H]; [left; reflexivity | right; exact H]|].
  split; [destruct Hinhi as [-> | H]; [left; reflexivity | right; exact H]|].
  constructor; [lra|].
  rewrite Forall_forall in *. intros z Hz.
  specialize (Hlall z Hz). specialize (Hhall z Hz). lra.
Qed.

Lemma simular_nan_paths random fuel (p v d : number) (s : nat) :
  simular random fuel p v d NaN s =
    Done (NextResponse_json (ResultBody (resumen p d [])) 200) s.
Proof.
  unfold simular. cbv zeta. unfold bind at 1.
  unfold Array_from. cbn [ToLength Z.ltb Z.compare Z.to_nat times ret].
  unfold bind at 1. cbn [range_lt].
  rewrite for_each_skip. reflexivity.
Qed.

(** X18.  For valid parameters the fields [precio_final_minimo] and
    [precio_final_maximo] of the response are final prices of the matrix,
    and every final price lies between them.  When
    [simulaciones] is [NaN] the matrix is empty and they are [Infinity]
    and [-Infinity], the least above the greatest. *)
Theorem final_price_extremes :
  (forall random fuel (p v : R) (d n : Z) (s0 : nat),
      well_behaved_source random fuel -> valid_parameters p v d n ->
      exists res s' lo hi,
        POST random fuel (request p v d n) s0 =
          Done (NextResponse_json (ResultBody res) 200) s' /\
        res_precio_final_minimo res = Finite (Num lo) /\
        res_precio_final_maximo res = Finite (Num hi) /\
        In (Num lo) (preciosFinales (Num (IZR d)) (res_simulaciones res)) /\
        In (Num hi) (preciosFinales (Num (IZR d)) (res_simulaciones res)) /\
        Forall (fun x => exists r, x = Num r /\ lo <= r <= hi)
               (preciosFinales (Num (IZR d)) (res_simulaciones res))) /\
  (forall random fuel (p v d : number) (s : nat),
      nan_or price_range p -> nan_or volatility_range v ->
      nan_or days_range d ->
      exists res,
        POST random fuel (numeric p v d NaN) s =
          Done (NextResponse_json (ResultBody res) 200) s /\
        res_precio_final_minimo res = Infinity /\
        res_precio_final_maximo res = NegInfinity).
Proof.
  split.
  - intros random fuel p v d n s0 Hsrc Hvalid.
    rewrite (POST_valid_resumen random fuel p v d n s0 Hsrc Hvalid).
    destruct Hvalid as (Hp & Hv & Hd & Hn).
    set (M := matriz_en _ _ _ _ _ _ _ _ _).
    destruct (columna_reals random fuel p v (Z.to_nat n) (Z.to_nat d) s0
                (Z.to_nat d) Hsrc Hp ltac:(lia) ltac:(lia))
      as (l & Hl & Hne).
    fold M in Hl.
    destruct (Math_min_max_reals l Hne)
      as (lo & hi & Hmin & Hmax & Hlo & Hhi & Hall).
    eexists. eexists. exists lo, hi.
    split; [reflexivity|].
    unfold resumen.
    cbn [res_simulaciones res_precio_final_minimo res_precio_final_maximo].
    fold (preciosFinales (Num (IZR d)) M).
    rewrite preciosFinales_columna by lia. rewrite Hl.
    split; [exact Hmin|]. split; [exact Hmax|].
    split; [apply in_map; exact Hlo|]. split; [apply in_map; exact Hhi|].
    apply Forall_forall. intros x Hx. apply in_map_iff in Hx.
    destruct Hx as (r & <- & Hr). exists r. split; [reflexivity|].
    rewrite Forall_forall in Hall. apply Hall. exact Hr.
  - intros random fuel p v d s Hp Hv Hd.
    assert (Ha : accepted (numeric p v d NaN))
      by (apply accepted_nan_or; simpl; auto).
    rewrite (POST_accepted _ _ _ Ha). unfold try_catch. simpl as_number.
    rewrite simular_nan_paths. eexists. split; [reflexivity|].
    split; reflexivity.
Qed.

Lemma final_price_extremes_witness :
  exists res s' lo hi,
    POST constant_half 1 (request 100 20 1 100) 0%nat =
      Done (NextResponse_json (ResultBody res) 200) s' /\
    res_precio_final_minimo res = Finite (Num lo) /\
    res_precio_final_maximo res = Finite (Num hi) /\
    In (Num lo) (preciosFinales (Num (IZR 1)) (res_simulaciones res)) /\
    In (Num hi) (preciosFinales (Num (IZR 1)) (res_simulaciones res)) /\
    Forall (fun x => exists r, x = Num r /\ lo <= r <= hi)
           (preciosFinales (Num (IZR 1)) (res_simulaciones res)).
Proof.
  apply (proj1 final_price_extremes constant_half 1%nat 100 20 1%Z 100%Z 0%nat
           constant_half_well_behaved valid_parameters_example).
Defined.

(** ** How much of the random source a request consumes *)

Lemma gauss_next_calls random fuel (s : nat) :
  well_behaved_source random fuel ->
  (s + 2 <= gauss_next random fuel s)%nat /\
  ((forall k, random k <> 0) -> gauss_next random fuel s = (s + 2)%nat).
Proof.
  intros [Hrange Hnz].
  pose proof (gaussianRandom_value random fuel Hrange Hnz s) as Hval.
  unfold gaussianRandom, bind in Hval.
  pose proof (while_zero_spec random fuel s) as Hu.
  destruct (while_zero random fuel (Num 0) s) as [u s1|e s1|]; try discriminate.
  destruct Hu as (a & _ & [Hza _] & _ & ->).
  pose proof (while_zero_spec random fuel (s + a + 1)%nat) as Hv.
  destruct (while_zero random fuel (Num 0) (s + a + 1)%nat) as [w s2|e s2|];
    try discriminate.
  destruct Hv as (b & _ & [Hzb _] & _ & ->).
  unfold ret in Hval. injection Hval as _ Hnext. rewrite <- Hnext.
  split; [lia|]. intros Hall.
  destruct a as [|a]; [|exfalso; apply (Hall (s + 0)%nat), Hza; lia].
  destruct b as [|b]; [|exfalso; apply (Hall (s + 0 + 1 + 0)%nat), Hzb; lia].
  lia.
Qed.

Lemma state_after_calls random fuel (k s0 : nat) :
  well_behaved_source random fuel ->
  (s0 + 2 * k <= state_after random fuel k s0)%nat /\
  ((forall j, random j <> 0) -> state_after random fuel k s0 = (s0 + 2 * k)%nat).
Proof.
  intros Hsrc. induction k as [|k [IHle IHeq]].
  - simpl. split; [lia|]. intros _. unfold state_after. simpl. lia.
  - rewrite state_after_S.
    destruct (gauss_next_calls random fuel (state_after random fuel k s0) Hsrc)
      as [Hle Heq].
    split; [lia|]. intros Hall. rewrite (Heq Hall), (IHeq Hall). lia.
Qed.

(** X19.  For valid parameters a request makes at least
    [2 * horizonDays * pathCount] calls of [Math.random], two per step of
    each trajectory, and exactly that many when no call returns 0. *)
Theorem random_calls_consumed random fuel (p v : R) (d n : Z) (s0 : nat) :
  well_behaved_source random fuel -> valid_parameters p v d n ->
  exists res s',
    POST random fuel (request p v d n) s0 =
      Done (NextResponse_json (ResultBody res) 200) s' /\
    (s0 + 2 * (Z.to_nat d * Z.to_nat n) <= s')%nat /\
    ((forall k, random k <> 0) ->
     s' = (s0 + 2 * (Z.to_nat d * Z.to_nat n))%nat).
Proof.
  intros Hsrc Hvalid.
  destruct (POST_valid random fuel p v d n s0 Hsrc Hvalid) as (res & Hpost & _).
  exists res. eexists. split; [exact Hpost|].
  apply state_after_calls. exact Hsrc.
Qed.

Lemma random_calls_consumed_witness :
  exists res s',
    POST constant_half 1 (request 100 20 1 100) 0%nat =
      Done (NextResponse_json (ResultBody res) 200) s' /\
    (0 + 2 * (Z.to_nat 1 * Z.to_nat 100) <= s')%nat /\
    ((forall k, constant_half k <> 0) ->
     s' = (0 + 2 * (Z.to_nat 1 * Z.to_nat 100))%nat).
Proof.
  apply random_calls_consumed.
  - exact constant_half_well_behaved.
  - exact valid_parameters_example.
Defined.

